(** * Resilient request orchestration of the incident-response frontend

    A shallow embedding of [frontend/src/lib/api.ts] (backoff policy, timeout
    guard, retrying dispatcher, response handling), [frontend/src/lib/errors.ts],
    [frontend/src/lib/constants.ts], [frontend/src/types/index.ts] and
    [frontend/src/hooks/useAnalysis.ts] (operation lifecycle).

    Conventions.
    - Durations and instants are milliseconds.  JavaScript numbers that are
      integers in the source are [Z]; the jittered delays, that involve
      [Math.random()], are rationals [Q] (floating-point rounding is not
      modelled).
    - A promise that settles is a value of [Completion]: [Ok v] when it
      resolves, [Throw e] when it rejects.
    - The platform ([fetch], [AbortController], timers, [Date]) is the
      environment: it is described by the records [Upstream] and [Env]. *)

From Stdlib Require Import ZArith QArith Qminmax Qround Qpower Bool List String Ascii Lia Lqa.
From Stdlib Require Import DecimalString DecimalPos DecimalN.
Import ListNotations.

Local Open Scope string_scope.
Local Open Scope Z_scope.

(** ** Constants ([lib/constants.ts]) *)

Definition MAX_RETRIES : nat := 2.
Definition DEFAULT_TIMEOUT_MS : Z := 30000.
Definition INITIAL_RETRY_DELAY_MS : Z := 1000.
Definition MAX_RETRY_DELAY_MS : Z := 10000.
Definition FEEDBACK_MIN_LENGTH : nat := 5.
Definition FEEDBACK_MAX_LENGTH : nat := 2000.

(** ** JavaScript string primitives used by the source *)

Module Js.

(** [s.startsWith(p)] *)
Fixpoint startsWith (p s : string) : bool :=
  match p, s with
  | EmptyString, _ => true
  | String a p', String b s' => Ascii.eqb a b && startsWith p' s'
  | String _ _, EmptyString => false
  end.

(** [s.includes(p)] *)
Fixpoint includes (p s : string) : bool :=
  startsWith p s
  || match s with
     | EmptyString => false
     | String _ s' => includes p s'
     end.

(** White space of [String.prototype.trim] and of [parseInt].  A string is
    the sequence of its code units, of which the model has those below 256
    (all that a header value can hold); among them the white space and line
    terminators are TAB, LF, VT, FF, CR, SPACE and NO-BREAK SPACE. *)
Definition isWhiteSpace (c : ascii) : bool :=
  let n := nat_of_ascii c in
  ((9 <=? n) && (n <=? 13))%nat || (n =? 32)%nat || (n =? 160)%nat.

Fixpoint trimStart (s : string) : string :=
  match s with
  | EmptyString => EmptyString
  | String c s' => if isWhiteSpace c then trimStart s' else s
  end.

Fixpoint rev_string (acc s : string) : string :=
  match s with
  | EmptyString => acc
  | String c s' => rev_string (String c acc) s'
  end.

Definition trimEnd (s : string) : string :=
  rev_string EmptyString (trimStart (rev_string EmptyString s)).

(** [s.trim()] *)
Definition trim (s : string) : string := trimEnd (trimStart s).

(** [xs.join(sep)] *)
Definition join (sep : string) (xs : list string) : string := String.concat sep xs.

Definition isDigit (c : ascii) : bool :=
  let n := nat_of_ascii c in ((48 <=? n) && (n <=? 57))%nat.

Definition digitValue (c : ascii) : Z := Z.of_nat (nat_of_ascii c) - 48.

(** The longest prefix of decimal digits of [s], read as a number with
    [acc] as the digits already read; [None] when [s] starts with no digit
    and none was read yet ([seen = false]). *)
Fixpoint readDigits (seen : bool) (acc : Z) (s : string) : option Z :=
  match s with
  | String c s' =>
      if isDigit c then readDigits true (10 * acc + digitValue c) s'
      else if seen then Some acc else None
  | EmptyString => if seen then Some acc else None
  end.

(** [parseInt(s, 10)]: leading white space is skipped, one sign is
    accepted, then the longest run of decimal digits is read and whatever
    follows is ignored; [None] stands for [NaN]. *)
Definition parseInt10 (s : string) : option Z :=
  match trimStart s with
  | String "-" s' => option_map Z.opp (readDigits false 0 s')
  | String "+" s' => readDigits false 0 s'
  | s' => readDigits false 0 s'
  end.

(** [String(n)] for an integer [n]. *)
Definition numberToString (n : Z) : string := NilZero.string_of_int (Z.to_int n).

(** Truthiness of an optional string: [undefined], [null] and the empty
    string are falsy. *)
Definition truthy (s : option string) : bool :=
  match s with
  | Some (String _ _) => true
  | _ => false
  end.

(** [s || fallback] *)
Definition orElse (s : option string) (fallback : string) : string :=
  match s with
  | Some (String c s') => String c s'
  | _ => fallback
  end.

End Js.

(** ** Errors ([lib/api.ts], [lib/errors.ts]) *)

(** The values the code throws and catches.  [DOMException] is what [fetch]
    rejects with when its signal aborts (its [name] is then ["AbortError"]);
    [OtherError] is any other instance of [Error]; [NonError] a thrown value
    that is no [Error]. *)
Inductive JsError : Type :=
| TypeError (message : string)
| TimeoutError (message : string)
| ApiError (message : string) (status : Z) (details : option (list string))
           (isRetryable : bool)
| DOMException (name message : string)
| OtherError (name message : string)
| NonError.

Definition isError (e : JsError) : bool :=
  match e with NonError => false | _ => true end.

Definition errorName (e : JsError) : string :=
  match e with
  | TypeError _ => "TypeError"
  | TimeoutError _ => "TimeoutError"
  | ApiError _ _ _ _ => "ApiError"
  | DOMException n _ => n
  | OtherError n _ => n
  | NonError => ""
  end.

Definition errorMessage (e : JsError) : string :=
  match e with
  | TypeError m | TimeoutError m | ApiError m _ _ _ => m
  | DOMException _ m | OtherError _ m => m
  | NonError => ""
  end.

(** The rejection of an aborted [fetch]. *)
Definition abortError : JsError :=
  DOMException "AbortError" "The operation was aborted.".

(** [isAbortError] of [lib/errors.ts], which is also the test
    [error instanceof Error && error.name === "AbortError"] of [lib/api.ts]. *)
Definition isAbortError (e : JsError) : bool :=
  isError e && String.eqb (errorName e) "AbortError".

(** [isRetryableError] of [lib/api.ts]. *)
Definition isRetryableError (e : JsError) : bool :=
  match e with
  | TypeError m => Js.includes "fetch" m
  | TimeoutError _ => true
  | ApiError _ status _ _ => (500 <=? status) || (status =? 429)
  | _ => false
  end.

(** [formatErrorMessage] of [lib/errors.ts]. *)
Definition formatErrorMessage (e : JsError) : string :=
  match e with
  | TimeoutError _ =>
      "Request timed out. The server may be busy - please try again."
  | ApiError message _ details _ =>
      match details with
      | Some (d :: ds) => message ++ ": " ++ Js.join ", " (d :: ds)
      | _ => message
      end
  | NonError => "An unexpected error occurred"
  | _ => errorMessage e
  end.

(** ** Backoff policy ([lib/api.ts]) *)

Definition exponentialDelay (attempt : nat) : Z :=
  INITIAL_RETRY_DELAY_MS * 2 ^ Z.of_nat attempt.

(** The delay before jitter: [Math.min(exponentialDelay, MAX_RETRY_DELAY_MS)]. *)
Definition cappedDelay (attempt : nat) : Z :=
  Z.min (exponentialDelay attempt) MAX_RETRY_DELAY_MS.

(** [calculateRetryDelay(attempt)], with [random] the value that
    [Math.random()] returns in the call. *)
Definition calculateRetryDelay (attempt : nat) (random : Q) : Q :=
  (inject_Z (cappedDelay attempt) + random * 1000)%Q.

(** [parseRetryAfter(retryAfter, fallbackDelay)].  [parseDate s] is
    [new Date(s).getTime()] ([None] for [NaN]) and [now] is [Date.now()]. *)
Definition parseRetryAfter (parseDate : string -> option Z) (now : Z)
    (retryAfter : option string) (fallbackDelay : Q) : Q :=
  match retryAfter with
  | None | Some EmptyString => fallbackDelay
  | Some h =>
      match Js.parseInt10 h with
      | Some seconds => inject_Z (Z.min (seconds * 1000) MAX_RETRY_DELAY_MS)
      | None =>
          match parseDate h with
          | Some retryDate =>
              let delay := Z.max 0 (retryDate - now) in
              inject_Z (Z.min delay MAX_RETRY_DELAY_MS)
          | None => fallbackDelay
          end
      end
  end.

(** ** Structured document ([types/index.ts]) *)

Record IncidentForm : Type := {
  date_and_time_of_incident : string;
  service_user_name : string;
  location_of_incident : string;
  type_of_incident : string;
  description_of_incident : string;
  immediate_actions_taken : string;
  was_first_aid_administered : bool;
  were_emergency_services_contacted : bool;
  who_was_notified : string;
  witnesses : string;
  agreed_next_steps : string;
  risk_assessment_needed : bool;
  if_yes_which_risk_assessment : string
}.

Record PolicyAnalysis : Type := {
  relevant_policies : list string;
  policy_compliance : list string;
  recommended_actions : list string;
  concerns : list string
}.

Record DraftEmail : Type := {
  to : list string;
  cc : option (list string);
  subject : string;
  body : string
}.

Record AnalysisResponse : Type := {
  incident_form : IncidentForm;
  policy_analysis : PolicyAnalysis;
  draft_email : DraftEmail;
  source_quotes : list (string * string)
}.

Inductive SectionType : Type := incident_form_section | draft_email_section | all_sections.

(** The body that [refineWithFeedback] serialises. *)
Record RefinementRequest : Type := {
  original_response : AnalysisResponse;
  feedback : string;
  section_to_edit : SectionType
}.

(** The body that [analyzeTranscript] serialises;
    [additionalContext?.trim() || undefined] drops an empty context. *)
Record AnalyzeRequest : Type := {
  transcript : string;
  additional_context : option string
}.

(** The minimum-content constraints that the comments of [types/index.ts]
    record for the backend's validators ([min_length] of the required
    strings, [to] a non-empty list of non-empty strings, the elements of a
    present [cc] non-empty).  The format constraint on the date is not a
    minimum-content constraint and is left out. *)
Definition minLength (n : nat) (s : string) : bool := (n <=? String.length s)%nat.

Definition incidentFormHasMinimumContent (f : IncidentForm) : bool :=
  minLength 1 (service_user_name f) && minLength 1 (location_of_incident f)
  && minLength 1 (type_of_incident f) && minLength 10 (description_of_incident f)
  && minLength 1 (immediate_actions_taken f) && minLength 1 (who_was_notified f)
  && minLength 1 (agreed_next_steps f).

Definition draftEmailHasMinimumContent (e : DraftEmail) : bool :=
  (1 <=? List.length (to e))%nat && forallb (minLength 1) (to e)
  && match cc e with Some l => forallb (minLength 1) l | None => true end
  && minLength 5 (subject e) && minLength 20 (body e).

Definition hasMinimumContent (d : AnalysisResponse) : bool :=
  incidentFormHasMinimumContent (incident_form d)
  && draftEmailHasMinimumContent (draft_email d).

(** ** Promises, responses and the environment *)

Inductive Completion (A : Type) : Type :=
| Ok (a : A)
| Throw (e : JsError).
Arguments Ok {A} a.
Arguments Throw {A} e.

Definition bind {A B : Type} (c : Completion A) (k : A -> Completion B) : Completion B :=
  match c with
  | Ok a => k a
  | Throw e => Throw e
  end.

Notation "x <- c ;; k" := (bind c (fun x => k))
  (at level 61, c at next level, right associativity).

(** A parsed JSON body: the properties the code reads from it dynamically
    ([detail], [errors]) and the value itself under the unchecked cast to
    [AnalysisResponse] that [handleResponse<T>] performs. *)
Record Json : Type := {
  detail : option string;
  errors : option (list string);
  value : AnalysisResponse
}.

(** A [Response]: [retryAfterHeader] is [headers.get("Retry-After")] and
    [json] is what [response.json()] resolves with, [None] when it rejects.
    [bodyTime] is the time that reading the body takes once the response is
    there ([response.text()] before a retry, [response.json()] in
    [handleResponse]): the timer of [fetchWithTimeout] is cleared by then,
    so no deadline bounds it. *)
Record Response : Type := {
  status : Z;
  statusText : string;
  retryAfterHeader : option string;
  json : option Json;
  bodyTime : Q
}.

(** [response.ok] *)
Definition ok (r : Response) : bool := (200 <=? status r) && (status r <=? 299).

(** How a [fetch] settles when nothing aborts it. *)
Inductive Settle : Type :=
| Resolves (r : Response)
| Rejects (e : JsError).

(** What the network does with one attempt: the [fetch] settles as
    [settles] after [latency] milliseconds, unless it is aborted before. *)
Record Upstream : Type := {
  latency : Q;
  settles : Settle
}.

(** The environment of one dispatcher invocation.  [upstream n] answers
    attempt [n], [random n] is the draw of [Math.random()] in attempt [n],
    [userAbort] is the instant at which the caller's signal fires ([None]:
    it never does, or no signal was passed), [parseDate] is
    [new Date(s).getTime()].  The clock counts milliseconds, and
    [Date.now()] is its integer part. *)
Record Env : Type := {
  upstream : nat -> Upstream;
  random : nat -> Q;
  userAbort : option Q;
  parseDate : string -> option Z
}.

Definition Qltb (a b : Q) : bool := negb (Qle_bool b a).

(** [userSignal?.aborted] at instant [t].  A signal that fires at [t] itself
    counts as fired: this is the reading of the handler that the signal's
    own event started.  Where the signal and the timer of an attempt are due
    at one instant the browser runs them in an order that the instants do
    not give; the properties below are stated away from that tie. *)
Definition userSignalAborted (userAbort : option Q) (t : Q) : bool :=
  match userAbort with
  | Some u => Qle_bool u t
  | None => false
  end.

(** The instant at which the attempt's own controller aborts, for an attempt
    started at [t0]: its timer fires at [t0 + timeoutMs]; the listener that
    [fetchWithTimeout] registers on the caller's signal aborts it when that
    signal fires later than [t0].  A signal that has already fired at [t0]
    dispatches no further event, so the listener never runs. *)
Definition controllerAbortsAt (timeoutMs : Z) (t0 : Q) (userAbort : option Q) : Q :=
  let deadline := (t0 + inject_Z timeoutMs)%Q in
  match userAbort with
  | Some u => if Qltb t0 u then Qmin u deadline else deadline
  | None => deadline
  end.

(** The [await fetch(url, {...options, signal: controller.signal})] of
    [fetchWithTimeout]: the instant at which it settles and how. *)
Definition awaitFetch (timeoutMs : Z) (t0 : Q) (userAbort : option Q)
    (up : Upstream) : Q * Settle :=
  let abortAt := controllerAbortsAt timeoutMs t0 userAbort in
  let natural := (t0 + latency up)%Q in
  if Qltb natural abortAt then (natural, settles up)
  else (abortAt, Rejects abortError).

(** The attempt is abandoned: its controller aborts before the [fetch]
    settles by itself. *)
Definition abandoned (timeoutMs : Z) (t0 : Q) (userAbort : option Q)
    (up : Upstream) : bool :=
  negb (Qltb (t0 + latency up)%Q (controllerAbortsAt timeoutMs t0 userAbort)).

(** ** Timeout guard ([fetchWithTimeout]) *)

Definition timeoutMessage (timeoutMs : Z) : string :=
  "Request timed out after " ++ Js.numberToString timeoutMs ++ "ms".

(** The [try]/[catch] of [fetchWithTimeout], given how the [fetch] settled
    and the value of [userSignal?.aborted] in the handler. *)
Definition guardSettle (timeoutMs : Z) (userAborted : bool) (s : Settle)
    : Completion Response :=
  match s with
  | Resolves response => Ok response
  | Rejects error =>
      if isAbortError error then
        if userAborted then Throw error
        else Throw (TimeoutError (timeoutMessage timeoutMs))
      else Throw error
  end.

(** [fetchWithTimeout(url, options, timeoutMs)] started at [t0]: the instant
    at which it settles and its completion. *)
Definition fetchWithTimeout (timeoutMs : Z) (t0 : Q) (userAbort : option Q)
    (up : Upstream) : Q * Completion Response :=
  let '(t1, s) := awaitFetch timeoutMs t0 userAbort up in
  (t1, guardSettle timeoutMs (userSignalAborted userAbort t1) s).

(** ** Retrying dispatcher ([fetchWithRetry]) *)

(** What one iteration of the loop does with the guarded attempt. *)
Inductive Step : Type :=
| Continue (delay : Q)
| Return (response : Response)
| Raise (error : JsError).

(** The body of the [for] loop after [fetchWithTimeout] settled; [t1] is
    the instant at which the delay is computed, which is when the body of a
    response that is retried has been read and discarded. *)
Definition attemptStep (env : Env) (maxRetries attempt : nat) (t1 : Q)
    (guarded : Completion Response) : Step :=
  match guarded with
  | Ok response =>
      if (500 <=? status response) && (attempt <? maxRetries)%nat then
        Continue (calculateRetryDelay attempt (random env attempt))
      else if (status response =? 429) && (attempt <? maxRetries)%nat then
        Continue (parseRetryAfter (parseDate env) (Qfloor t1)
                    (retryAfterHeader response)
                    (calculateRetryDelay attempt (random env attempt)))
      else Return response
  | Throw error =>
      if isAbortError error then Raise error
      else if isRetryableError error && (attempt <? maxRetries)%nat then
        Continue (calculateRetryDelay attempt (random env attempt))
      else Raise error
  end.

(** [await fetchWithTimeout(url, options)] in iteration [attempt], started at
    [clock]: the timeout is the default one and [options.signal] the
    caller's signal. *)
Definition guardedAttempt (env : Env) (attempt : nat) (clock : Q)
    : Q * Completion Response :=
  fetchWithTimeout DEFAULT_TIMEOUT_MS clock (userAbort env) (upstream env attempt).

(** What an invocation did, in order. *)
Inductive Event : Type :=
| Attempted (attempt : nat) (started finished : Q)
| Slept (delay : Q).

Record Run (A : Type) : Type := {
  outcome : Completion A;
  finishedAt : Q;
  events : list Event
}.
Arguments outcome {A} r.
Arguments finishedAt {A} r.
Arguments events {A} r.

Definition isAttempt (e : Event) : bool :=
  match e with Attempted _ _ _ => true | Slept _ => false end.

(** The number of network calls of a run. *)
Definition attempts {A : Type} (r : Run A) : nat :=
  List.length (filter isAttempt (events r)).

(** The delays the run waited, in order. *)
Definition waits {A : Type} (r : Run A) : list Q :=
  flat_map (fun e => match e with Slept d => [d] | _ => [] end) (events r).

Definition after {A : Type} (es : list Event) (r : Run A) : Run A :=
  {| outcome := outcome r; finishedAt := finishedAt r; events := es ++ events r |}.

(** [sleep(ms)]: [setTimeout] takes a negative delay for zero. *)
Definition sleep (clock delay : Q) : Q := (clock + Qmax 0 delay)%Q.

(** [await response.text().catch(() => {})]: the instant at which the body
    of a response has been read, for an attempt that settled at [t1].  The
    read is taken to run to its end: a caller's signal that fires during it
    would cut it short. *)
Definition drained (t1 : Q) (guarded : Completion Response) : Q :=
  match guarded with
  | Ok response => (t1 + bodyTime response)%Q
  | Throw _ => t1
  end.

(** The [for] loop of [fetchWithRetry], entered with the loop variable at
    [attempt]; [fuel] counts the iterations that remain before
    [attempt <= maxRetries] fails, where the code reaches
    [throw lastError]. *)
Fixpoint retryLoop (env : Env) (maxRetries fuel attempt : nat) (clock : Q)
    (lastError : option JsError) : Run Response :=
  match fuel with
  | O => {| outcome := Throw (match lastError with Some e => e | None => NonError end);
            finishedAt := clock; events := [] |}
  | S fuel' =>
      let '(t1, guarded) := guardedAttempt env attempt clock in
      let lastError' :=
        match guarded with Throw e => Some e | Ok _ => lastError end in
      match attemptStep env maxRetries attempt (drained t1 guarded) guarded with
      | Continue delay =>
          after [Attempted attempt clock t1; Slept delay]
            (retryLoop env maxRetries fuel' (S attempt)
               (sleep (drained t1 guarded) delay) lastError')
      | Return response =>
          {| outcome := Ok response; finishedAt := t1;
             events := [Attempted attempt clock t1] |}
      | Raise error =>
          {| outcome := Throw error; finishedAt := t1;
             events := [Attempted attempt clock t1] |}
      end
  end.

(** [fetchWithRetry(url, options, maxRetries)] started at [clock]. *)
Definition fetchWithRetry (env : Env) (maxRetries : nat) (clock : Q) : Run Response :=
  retryLoop env maxRetries (S maxRetries) 0 clock None.

(** [handleResponse<AnalysisResponse>(response)], for a body that parses to
    an object of the declared shape ([json response = Some j]) or does not
    parse ([None]); [handleResponseJson] below covers every settlement of
    [response.json()]. *)
Definition handleResponse (response : Response) : Completion AnalysisResponse :=
  if negb (ok response) then
    let errorDetail := match json response with Some j => detail j | None => None end in
    let errorErrors := match json response with Some j => errors j | None => None end in
    Throw (ApiError
             (Js.orElse errorDetail ("Request failed: " ++ statusText response))
             (status response)
             errorErrors
             ((500 <=? status response) || (status response =? 429)))
  else
    match json response with
    | Some j => Ok (value j)
    | None => Throw (OtherError "SyntaxError" "Unexpected end of JSON input")
    end.

(** What [response.json()] settles with: it rejects (the body is not JSON,
    or its read is aborted), or it resolves with the parsed value, which may
    be [null]. *)
Inductive JsonResult : Type :=
| JsonRejects (e : JsError)
| JsonNull
| JsonValue (j : Json).

(** [handleResponse] over every settlement of [response.json()], which is
    given apart from the response ([json response] is not read).  On a
    response that is not ok, [.catch(() => ({}))] replaces a rejection by
    the empty object, and reading [errorData.detail] of [null] throws the
    engine's [TypeError], whose message is [nullRead].  On an ok response
    the settlement is returned as it is, [null] included. *)
Definition handleResponseJson (nullRead : string) (response : Response)
    (body : JsonResult) : Completion (option AnalysisResponse) :=
  if negb (ok response) then
    let errorData : option (option string * option (list string)) :=
      match body with
      | JsonRejects _ => Some (None, None)
      | JsonNull => None
      | JsonValue j => Some (detail j, errors j)
      end in
    match errorData with
    | None => Throw (TypeError nullRead)
    | Some (errorDetail, errorErrors) =>
        Throw (ApiError
                 (Js.orElse errorDetail ("Request failed: " ++ statusText response))
                 (status response)
                 errorErrors
                 ((500 <=? status response) || (status response =? 429)))
    end
  else
    match body with
    | JsonRejects e => Throw e
    | JsonNull => Ok None
    | JsonValue j => Ok (Some (value j))
    end.

(** The settlement that the typed [json response] stands for. *)
Definition jsonOf (response : Response) : JsonResult :=
  match json response with
  | Some j => JsonValue j
  | None => JsonRejects (OtherError "SyntaxError" "Unexpected end of JSON input")
  end.

Definition andThen {B : Type} (r : Run Response) (k : Response -> Completion B) : Run B :=
  {| outcome := x <- outcome r ;; k x;
     finishedAt := drained (finishedAt r) (outcome r);
     events := events r |}.

(** The request bodies of the two calls. *)
Definition analyzeRequest (transcript : string) (additionalContext : option string)
    : AnalyzeRequest :=
  {| transcript := Js.trim transcript;
     additional_context :=
       match additionalContext with
       | Some c => if Js.truthy (Some (Js.trim c)) then Some (Js.trim c) else None
       | None => None
       end |}.

Definition refineRequest (originalResponse : AnalysisResponse) (feedback : string)
    (sectionToEdit : SectionType) : RefinementRequest :=
  {| original_response := originalResponse;
     feedback := Js.trim feedback;
     section_to_edit := sectionToEdit |}.

(** [analyzeTranscript] and [refineWithFeedback]: the retrying fetch followed
    by [handleResponse], which takes the time of reading the body of the
    response.  The upstream is opaque: its answers are those of [env],
    whatever the request. *)
Definition analyzeTranscript (env : Env) (clock : Q) : Run AnalysisResponse :=
  andThen (fetchWithRetry env MAX_RETRIES clock) handleResponse.

Definition refineWithFeedback (env : Env) (clock : Q) : Run AnalysisResponse :=
  andThen (fetchWithRetry env MAX_RETRIES clock) handleResponse.

(** ** Operation lifecycle ([hooks/useAnalysis.ts]) *)

Record HookState : Type := {
  result : option AnalysisResponse;
  loading : bool;
  refining : bool;
  error : option string
}.

Definition initialState : HookState :=
  {| result := None; loading := false; refining := false; error := None |}.

(** The calls of the state setters of the hook. *)
Inductive Setter : Type :=
| SetResult (response : AnalysisResponse)
| SetLoading (b : bool)
| SetRefining (b : bool)
| SetError (message : option string).

Definition applySetter (st : HookState) (s : Setter) : HookState :=
  match s with
  | SetResult r =>
      {| result := Some r; loading := loading st; refining := refining st; error := error st |}
  | SetLoading b =>
      {| result := result st; loading := b; refining := refining st; error := error st |}
  | SetRefining b =>
      {| result := result st; loading := loading st; refining := b; error := error st |}
  | SetError m =>
      {| result := result st; loading := loading st; refining := refining st; error := m |}
  end.

Definition applySetters (st : HookState) (l : list Setter) : HookState :=
  fold_left applySetter l st.

(** A setter call publishes when it sets a document or an error message;
    [setError(null)] clears and the two flags are no publication. *)
Definition publishes (s : Setter) : bool :=
  match s with
  | SetResult _ => true
  | SetError (Some _) => true
  | _ => false
  end.

Definition publications (l : list Setter) : list Setter := filter publishes l.

(** [analyze]: the setter calls before the [await] ... *)
Definition analyzeStart : list Setter := [SetLoading true; SetError None].

(** ... and those of the [try], [catch] and [finally] once
    [analyzeTranscript] has settled. *)
Definition analyzeSettled (c : Completion AnalysisResponse) : list Setter :=
  match c with
  | Ok response => [SetResult response]
  | Throw err =>
      if isAbortError err then [] else [SetError (Some (formatErrorMessage err))]
  end ++ [SetLoading false].

(** One whole [analyze] invocation started at [clock], nothing else running. *)
Definition analyze (env : Env) (clock : Q) : list Setter :=
  (analyzeStart ++ analyzeSettled (outcome (analyzeTranscript env clock)))%list.

Definition noResultMessage : string :=
  "No result to refine. Please analyze a transcript first.".

Definition refineStart : list Setter := [SetRefining true; SetError None].

Definition refineSettled (c : Completion AnalysisResponse) : list Setter :=
  match c with
  | Ok response => [SetResult response]
  | Throw err =>
      if isAbortError err then [] else [SetError (Some (formatErrorMessage err))]
  end ++ [SetRefining false].

(** One whole [refine] invocation, with [held] the [result] its closure
    holds: the request it sends, if any, and its setter calls. *)
Definition refine (env : Env) (clock : Q) (held : option AnalysisResponse)
    (feedback : string) (section : SectionType)
    : option RefinementRequest * list Setter :=
  match held with
  | None => (None, [SetError (Some noResultMessage)])
  | Some doc =>
      (Some (refineRequest doc feedback section),
       (refineStart ++ refineSettled (outcome (refineWithFeedback env clock)))%list)
  end.

(** *** Successive [analyze] invocations

    Every invocation first aborts the controller that [analyzeAbortRef]
    holds, which is the one of the invocation started before it: the signal
    of an invocation fires at the instant the next one starts. *)
Record Invocation : Type := {
  startedAt : Q;
  network : nat -> Upstream;
  jitter : nat -> Q
}.

Definition invocationEnv (dates : string -> option Z) (inv : Invocation)
    (supersededAt : option Q) : Env :=
  {| upstream := network inv; random := jitter inv;
     userAbort := supersededAt; parseDate := dates |}.

(** A batch of setter calls made at one instant by invocation [who];
    [settling] tells the calls made once the request has settled from those
    made when the invocation starts. *)
Record Batch : Type := {
  at_time : Q;
  who : nat;
  settling : bool;
  calls : list Setter
}.

Fixpoint analyzeBatches (dates : string -> option Z) (i : nat)
    (invs : list Invocation) : list Batch :=
  match invs with
  | [] => []
  | inv :: rest =>
      let supersededAt :=
        match rest with next :: _ => Some (startedAt next) | [] => None end in
      let run := analyzeTranscript (invocationEnv dates inv supersededAt) (startedAt inv) in
      {| at_time := startedAt inv; who := i; settling := false; calls := analyzeStart |}
      :: {| at_time := finishedAt run; who := i; settling := true;
            calls := analyzeSettled (outcome run) |}
      :: analyzeBatches dates (S i) rest
  end.

(** Batches in the order of their instants.  At one instant the calls of
    the invocations that start come first: the handlers of a request that
    settles at that instant, also of one that the start of the next
    invocation aborts, run after the synchronous calls of that start.
    Insertion keeps the order of the batches it does not tell apart. *)
Definition precedes (b b' : Batch) : bool :=
  Qltb (at_time b) (at_time b')
  || (Qle_bool (at_time b) (at_time b') && (negb (settling b) || settling b')).

Fixpoint insertBatch (b : Batch) (l : list Batch) : list Batch :=
  match l with
  | [] => [b]
  | b' :: l' =>
      if precedes b b' then b :: l
      else b' :: insertBatch b l'
  end.

Definition chronological (l : list Batch) : list Batch :=
  fold_right insertBatch [] l.

(** What the hook's state goes through when the invocations [invs] of
    [analyze] are started: every setter call with the invocation that made
    it, in the order in which they happen. *)
Definition analyzeSession (dates : string -> option Z) (invs : list Invocation)
    : list (nat * Setter) :=
  flat_map (fun b => map (fun s => (who b, s)) (calls b))
           (chronological (analyzeBatches dates 0 invs)).

Definition sessionState (st : HookState) (l : list (nat * Setter)) : HookState :=
  applySetters st (map snd l).

(** The invocations that published in the session, in order. *)
Definition publishers (l : list (nat * Setter)) : list nat :=
  map fst (filter (fun p => publishes (snd p)) l).

(** ** Vocabulary of the properties *)

(** The delay as the specification writes it, in milliseconds and over the
    rationals: [min(initial_delay * 2^attempt, max_delay) + jitter] with
    [initial_delay] one second and [max_delay] ten. *)
Definition specifiedDelay (attempt : nat) (jitter : Q) : Q :=
  (Qmin (1000 * 2 ^ Z.of_nat attempt) 10000 + jitter)%Q.

Definition isLetter (c : ascii) : bool :=
  let n := nat_of_ascii c in
  ((65 <=? n) && (n <=? 90))%nat || ((97 <=? n) && (n <=? 122))%nat.

(** The decimal numeral of a whole-second count, as [Retry-After] carries it. *)
Definition numeral (seconds : N) : string :=
  NilZero.string_of_uint (N.to_uint seconds).

(** The statuses that are retried. *)
Definition retryableStatus (s : Z) : bool := (500 <=? s) || (s =? 429).

(** An attempt that ends in a retryable failure: a 5xx or 429 response, a
    timeout, or a network failure as [isRetryableError] recognises it. *)
Definition retryableFailure (guarded : Completion Response) : bool :=
  match guarded with
  | Ok response => retryableStatus (status response)
  | Throw e => isRetryableError e
  end.

(** The retryable failures as the specification lists them, read on what
    an attempt ends in: a 5xx or 429 response, a timeout, or a network
    failure, which [fetch] reports as a [TypeError] and which is taken here
    in the wording that mentions [fetch]. *)
Definition recognisedFailure (guarded : Completion Response) : bool :=
  match guarded with
  | Ok response => (500 <=? status response) || (status response =? 429)
  | Throw (TimeoutError _) => true
  | Throw (TypeError message) => Js.includes "fetch" message
  | Throw _ => false
  end.

Definition isContinue (s : Step) : bool :=
  match s with Continue _ => true | _ => false end.

(** The attempts of a run all end in a retryable failure. *)
Definition allAttemptsRetryable {A : Type} (env : Env) (run : Run A) : Prop :=
  forall n started finished,
    In (Attempted n started finished) (events run) ->
    retryableFailure (snd (guardedAttempt env n started)) = true.

(** ** Concrete documents, responses and environments *)

Module Samples.

Definition form : IncidentForm := {|
  date_and_time_of_incident := "2025-01-31T14:30:00";
  service_user_name := "Greg Jones";
  location_of_incident := "Kitchen";
  type_of_incident := "Fall";
  description_of_incident := "Greg fell in the kitchen this morning.";
  immediate_actions_taken := "Helped him up and checked for injuries";
  was_first_aid_administered := false;
  were_emergency_services_contacted := false;
  who_was_notified := "Supervisor";
  witnesses := "";
  agreed_next_steps := "Moving and handling assessment";
  risk_assessment_needed := true;
  if_yes_which_risk_assessment := "Moving and handling"
|}.

Definition policies : PolicyAnalysis := {|
  relevant_policies := ["Falls policy"];
  policy_compliance := ["Supervisor informed"];
  recommended_actions := ["Book an assessment"];
  concerns := ["Third fall this week"]
|}.

(** A document that meets every minimum-content constraint; [title] is the
    subject of its email and tells documents apart. *)
Definition document (title : string) : AnalysisResponse := {|
  incident_form := form;
  policy_analysis := policies;
  draft_email := {| to := ["supervisor@example.org"]; cc := None;
                    subject := title;
                    body := "Dear team, Greg fell in the kitchen today." |};
  source_quotes := [("type_of_incident", "he has had a fall")]
|}.

(** The same document with the only recipient removed and the description
    shortened below ten characters. *)
Definition thinDocument : AnalysisResponse := {|
  incident_form := {|
    date_and_time_of_incident := date_and_time_of_incident form;
    service_user_name := service_user_name form;
    location_of_incident := location_of_incident form;
    type_of_incident := type_of_incident form;
    description_of_incident := "a fall";
    immediate_actions_taken := immediate_actions_taken form;
    was_first_aid_administered := was_first_aid_administered form;
    were_emergency_services_contacted := were_emergency_services_contacted form;
    who_was_notified := who_was_notified form;
    witnesses := witnesses form;
    agreed_next_steps := agreed_next_steps form;
    risk_assessment_needed := risk_assessment_needed form;
    if_yes_which_risk_assessment := if_yes_which_risk_assessment form |};
  policy_analysis := policies;
  draft_email := {| to := []; cc := None; subject := "Incident report";
                    body := "Dear team, Greg fell in the kitchen today." |};
  source_quotes := []
|}.

(** A 200 response that carries [doc]. *)
Definition success (doc : AnalysisResponse) : Response := {|
  status := 200; statusText := "OK"; retryAfterHeader := None;
  json := Some {| detail := None; errors := None; value := doc |};
  bodyTime := 0
|}.

(** A failure response with the body [{detail, errors}]. *)
Definition failure (code : Z) (text : string) (hint : option string)
    (message : option string) (list : option (list string)) : Response := {|
  status := code; statusText := text; retryAfterHeader := hint;
  json := Some {| detail := message; errors := list; value := document "" |};
  bodyTime := 0
|}.

Definition unavailable : Response :=
  failure 503 "Service Unavailable" None (Some "Upstream model unavailable") None.

Definition rateLimited : Response :=
  failure 429 "Too Many Requests" (Some "5") (Some "Rate limit exceeded") None.

Definition unprocessable : Response :=
  failure 422 "Unprocessable Entity" None (Some "Validation failed")
          (Some ["transcript: too short"]).

Definition answers (ms : Q) (r : Response) : Upstream :=
  {| latency := ms; settles := Resolves r |}.

Definition noDates : string -> option Z := fun _ => None.

(** An environment in which every attempt gets the same answer, the jitter
    is zero and the caller's signal fires at [cancel], if at all. *)
Definition steady (up : Upstream) (cancel : option Q) : Env :=
  {| upstream := fun _ => up; random := fun _ => 0%Q;
     userAbort := cancel; parseDate := noDates |}.

(** Every attempt is answered 503 after fifteen seconds. *)
Definition slowOutage : Env := steady (answers 15000 unavailable) None.

(** Every attempt is answered 429 with [Retry-After: 5] after 100 ms. *)
Definition throttled : Env := steady (answers 100 rateLimited) None.

(** Every attempt is answered 422 after 100 ms. *)
Definition rejected : Env := steady (answers 100 unprocessable) None.

(** The answer would take five seconds; the caller cancels after one. *)
Definition cancelled : Env := steady (answers 5000 (success (document "late"))) (Some 1000%Q).

(** The first [analyze]: its first attempt is answered 503 after 100 ms, its
    retry is answered 200 after five seconds. *)
Definition firstAnalyze : Invocation := {|
  startedAt := 0;
  network := fun n =>
    match n with
    | O => answers 100 unavailable
    | S _ => answers 5000 (success (document "first"))
    end;
  jitter := fun _ => 0%Q
|}.

(** The second [analyze], started at 500 ms while the first one waits for
    its retry; it is answered 200 after 300 ms. *)
Definition secondAnalyze : Invocation := {|
  startedAt := 500;
  network := fun _ => answers 300 (success (document "second"));
  jitter := fun _ => 0%Q
|}.

End Samples.

(** ** The controllers of the hook ([hooks/useAnalysis.ts])

    [analyzeAbortRef] and [refineAbortRef] hold the [AbortController] of the
    invocation started last, if any.  The controllers are shared objects:
    they are kept in creation order, a reference is an index, and
    [madeBy] records which operation created each one. *)

Inductive Kind : Type := AnalyzeOp | RefineOp.

Record Controller : Type := {
  madeBy : Kind;
  isAborted : bool
}.

Record Refs : Type := {
  controllers : list Controller;
  analyzeAbortRef : option nat;
  refineAbortRef : option nat
}.

Definition noRefs : Refs :=
  {| controllers := []; analyzeAbortRef := None; refineAbortRef := None |}.

(** [controller.abort()] on the controller at index [id]. *)
Fixpoint abortAt (id : nat) (l : list Controller) : list Controller :=
  match l, id with
  | [], _ => []
  | c :: l', O => {| madeBy := madeBy c; isAborted := true |} :: l'
  | c :: l', S id' => c :: abortAt id' l'
  end.

(** [ref.current?.abort()] *)
Definition abortRef (ref : option nat) (l : list Controller) : list Controller :=
  match ref with
  | Some id => abortAt id l
  | None => l
  end.

(** [cancelRequests], which the clean-up of the mount effect calls. *)
Definition cancelRequests (s : Refs) : Refs :=
  {| controllers := abortRef (refineAbortRef s) (abortRef (analyzeAbortRef s) (controllers s));
     analyzeAbortRef := None;
     refineAbortRef := None |}.

(** The first two statements of [analyze]. *)
Definition beginAnalyze (s : Refs) : Refs :=
  let l := abortRef (analyzeAbortRef s) (controllers s) in
  {| controllers := (l ++ [{| madeBy := AnalyzeOp; isAborted := false |}])%list;
     analyzeAbortRef := Some (List.length l);
     refineAbortRef := refineAbortRef s |}.

(** The same statements of [refine], reached when there is a result. *)
Definition beginRefine (s : Refs) : Refs :=
  let l := abortRef (refineAbortRef s) (controllers s) in
  {| controllers := (l ++ [{| madeBy := RefineOp; isAborted := false |}])%list;
     analyzeAbortRef := analyzeAbortRef s;
     refineAbortRef := Some (List.length l) |}.

(** What touches the references: a call of [analyze], a call of [refine]
    that has a result to refine, and the unmount. *)
Inductive HookCall : Type := CallAnalyze | CallRefine | Unmount.

Definition hookCall (s : Refs) (c : HookCall) : Refs :=
  match c with
  | CallAnalyze => beginAnalyze s
  | CallRefine => beginRefine s
  | Unmount => cancelRequests s
  end.

Definition afterCalls (calls : list HookCall) : Refs := fold_left hookCall calls noRefs.

Definition refOf (k : Kind) (s : Refs) : option nat :=
  match k with
  | AnalyzeOp => analyzeAbortRef s
  | RefineOp => refineAbortRef s
  end.

(** ** The forms of the page ([TranscriptInput], [FeedbackForm],
    [ResultsPanel], [HomePage]) *)

Definition TRANSCRIPT_MIN_LENGTH : nat := 50.
Definition TRANSCRIPT_MAX_LENGTH : Z := 50000.

(** The line under a text area. *)
Inductive InputStatus : Type :=
| MoreNeeded (charsNeeded : Z) (plural : bool)
| Ready
| MinimumRequired.

(** [trimmedLength], [isValidLength], [charsNeeded] and the status line of
    [TranscriptInput] and of [FeedbackForm], which differ by the minimum. *)
Definition trimmedLength (text : string) : nat := String.length (Js.trim text).

Definition isValidLength (minimum : nat) (text : string) : bool :=
  (minimum <=? trimmedLength text)%nat.

Definition charsNeeded (minimum : nat) (text : string) : Z :=
  Z.of_nat minimum - Z.of_nat (trimmedLength text).

Definition inputStatus (minimum : nat) (text : string) : InputStatus :=
  if (0 <? String.length text)%nat && negb (isValidLength minimum text) then
    MoreNeeded (charsNeeded minimum text) (negb (charsNeeded minimum text =? 1))
  else if (0 <? String.length text)%nat then Ready
  else MinimumRequired.

(** [disabled] of the two submit buttons. *)
Definition buttonDisabled (busy : bool) (minimum : nat) (text : string) : bool :=
  busy || negb (isValidLength minimum text).

(** [handleAnalyze] of [HomePage]: the request that leaves, if any, and the
    setter calls of the hook. *)
Definition handleAnalyze (env : Env) (clock : Q) (transcript : string)
    : option AnalyzeRequest * list Setter :=
  if negb (Js.truthy (Some (Js.trim transcript)))
     || (String.length (Js.trim transcript) <? TRANSCRIPT_MIN_LENGTH)%nat
  then (None, [])
  else (Some (analyzeRequest transcript None), analyze env clock).

(** The value [refine] of the hook returns. *)
Definition refineReturns (env : Env) (clock : Q) (held : option AnalysisResponse) : bool :=
  match held with
  | None => false
  | Some _ =>
      match outcome (refineWithFeedback env clock) with
      | Ok _ => true
      | Throw _ => false
      end
  end.

(** [handleRefine] of [HomePage]: request, setter calls and returned value. *)
Definition pageHandleRefine (env : Env) (clock : Q) (result : option AnalysisResponse)
    (feedback : string) (section : SectionType)
    : option RefinementRequest * list Setter * bool :=
  match result with
  | None => (None, [], false)
  | Some _ =>
      (refine env clock result feedback section, refineReturns env clock result)
  end.

(** [handleRefine] of [ResultsPanel] with [onRefine] the handler of the
    page: request, setter calls of the hook, and the feedback the panel
    holds afterwards. *)
Definition panelHandleRefine (env : Env) (clock : Q) (result : option AnalysisResponse)
    (feedback : string) (feedbackSection : SectionType)
    : option RefinementRequest * list Setter * string :=
  let trimmed := Js.trim feedback in
  if (String.length trimmed <? FEEDBACK_MIN_LENGTH)%nat then (None, [], feedback)
  else
    let '(sent, success) := pageHandleRefine env clock result trimmed feedbackSection in
    (sent, if success then "" else feedback).

(** The controllers that have not been aborted are exactly those the
    references hold, each under the reference of the operation that made
    it. *)
Definition liveIsHeld (s : Refs) : Prop :=
  (forall k id, refOf k s = Some id ->
     nth_error (controllers s) id = Some {| madeBy := k; isAborted := false |})
  /\ (forall id c, nth_error (controllers s) id = Some c -> isAborted c = false ->
        refOf (madeBy c) s = Some id).

Module Cases.

(** An [analyze] whose only answer takes five seconds. *)
Definition slowAnalyze : Invocation := {|
  startedAt := 0;
  network := fun _ => Samples.answers 5000 (Samples.success (Samples.document "first"));
  jitter := fun _ => 0%Q
|}.

(** The network fails with the message of a browser that does not mention
    [fetch]. *)
Definition loadFailed : Env :=
  Samples.steady {| latency := 100; settles := Rejects (TypeError "Load failed") |} None.

(** The same failure in the wording of a browser that mentions [fetch]. *)
Definition failedToFetch : Env :=
  Samples.steady {| latency := 100; settles := Rejects (TypeError "Failed to fetch") |} None.

(** The network of [Samples.firstAnalyze], a 503 after 100 ms and then a
    200 after five seconds, with a caller who cancels at 500 ms, during the
    wait before the retry ... *)
Definition cancelledInBackoff : Env :=
  {| upstream := network Samples.firstAnalyze; random := fun _ => 0%Q;
     userAbort := Some 500%Q; parseDate := Samples.noDates |}.

(** ... and with a caller who cancels at two seconds, while the retry is in
    flight. *)
Definition cancelledInRetry : Env :=
  {| upstream := network Samples.firstAnalyze; random := fun _ => 0%Q;
     userAbort := Some 2000%Q; parseDate := Samples.noDates |}.

(** A 503 whose body is the JSON text [null]; the message is the one V8
    gives for reading a property of [null]. *)
Definition bare503 : Response := {|
  status := 503; statusText := "Service Unavailable"; retryAfterHeader := None;
  json := None; bodyTime := 0
|}.

Definition nullRead : string := "Cannot read properties of null (reading 'detail')".

(** The answer comes after five seconds; the caller's signal fired at one
    second. *)
Definition lateAnswer : Env :=
  Samples.steady (Samples.answers 5000 (Samples.success (Samples.document "late")))
                 (Some 1000%Q).

End Cases.

(** ** What the page shows ([HomePage]) *)

(** The four conditional blocks of the page: the loading notice
    ([loading]), the error box ([error && !loading]), the results panel
    ([result && !loading]) and the empty state
    ([!result && !loading && !error]). *)
Record Panels : Type := {
  showsLoading : bool;
  showsError : bool;
  showsResults : bool;
  showsEmpty : bool
}.

Definition hasResult (st : HookState) : bool :=
  match result st with Some _ => true | None => false end.

Definition panels (st : HookState) : Panels :=
  {| showsLoading := loading st;
     showsError := Js.truthy (error st) && negb (loading st);
     showsResults := hasResult st && negb (loading st);
     showsEmpty := negb (hasResult st) && negb (loading st) && negb (Js.truthy (error st)) |}.
(** * Properties *)

Example parseInt10_examples :
  Js.parseInt10 "5" = Some 5 /\ Js.parseInt10 " 120 " = Some 120 /\
  Js.parseInt10 "-7" = Some (-7) /\ Js.parseInt10 "12abc" = Some 12 /\
  Js.parseInt10 "Wed, 21 Oct 2015 07:28:00 GMT" = None /\
  Js.parseInt10 "" = None /\ Js.parseInt10 "+" = None.
Proof. repeat split; reflexivity. Qed.

Example trim_examples :
  Js.trim "  make it formal  " = "make it formal" /\ Js.trim "   " = "" /\
  Js.numberToString 30000 = "30000".
Proof. repeat split; reflexivity. Qed.


(** ** Backoff policy *)


Lemma inject_Z_min (a b : Z) :
  (inject_Z (Z.min a b) == Qmin (inject_Z a) (inject_Z b))%Q.
Proof.
  destruct (Z.le_ge_cases a b) as [Hab | Hab].
  - rewrite Z.min_l by exact Hab.
    symmetry. apply Q.min_l. rewrite <- Zle_Qle. exact Hab.
  - rewrite Z.min_r by exact Hab.
    symmetry. apply Q.min_r. rewrite <- Zle_Qle. exact Hab.
Qed.

Lemma exponentialDelay_Q (attempt : nat) :
  (inject_Z (exponentialDelay attempt) == 1000 * 2 ^ Z.of_nat attempt)%Q.
Proof.
  unfold exponentialDelay, INITIAL_RETRY_DELAY_MS.
  rewrite inject_Z_mult, Zpower_Qpower by apply Nat2Z.is_nonneg.
  reflexivity.
Qed.

Lemma exponentialDelay_mono (n m : nat) :
  (n <= m)%nat -> exponentialDelay n <= exponentialDelay m.
Proof.
  intros Hnm. unfold exponentialDelay, INITIAL_RETRY_DELAY_MS.
  apply Z.mul_le_mono_nonneg_l; [lia |].
  apply Z.pow_le_mono_r; lia.
Qed.

Lemma cappedDelay_bounds (attempt : nat) :
  1000 <= cappedDelay attempt <= 10000.
Proof.
  unfold cappedDelay, MAX_RETRY_DELAY_MS.
  pose proof (exponentialDelay_mono 0 attempt (Nat.le_0_l _)) as H0.
  change (exponentialDelay 0) with 1000 in H0.
  lia.
Qed.

Lemma calculateRetryDelay_bounds (attempt : nat) (r : Q) :
  (0 <= r)%Q -> (r < 1)%Q ->
  (1000 <= calculateRetryDelay attempt r)%Q /\ (calculateRetryDelay attempt r <= 11000)%Q.
Proof.
  intros H0 H1. unfold calculateRetryDelay.
  pose proof (cappedDelay_bounds attempt) as [Hlo Hhi].
  rewrite Zle_Qle in Hlo, Hhi.
  change (inject_Z 1000) with 1000%Q in Hlo.
  change (inject_Z 10000) with 10000%Q in Hhi.
  split; lra.
Qed.

(** C2.  For every attempt index and every draw [r] of [Math.random()] in
    [0, 1), the jitter [j = r * 1000] lies in [0, 1000) and the computed
    delay is [min(1000 * 2^attempt, 10000) + j] milliseconds; hence it is at
    most [max_delay] plus one second, at least the capped exponential
    component, and that component never decreases as the attempt index
    grows. *)
Theorem calculateRetryDelay_backoff (attempt : nat) (r : Q) :
  (0 <= r)%Q -> (r < 1)%Q ->
  let j := (r * 1000)%Q in
  (0 <= j)%Q /\ (j < 1000)%Q /\
  (calculateRetryDelay attempt r == specifiedDelay attempt j)%Q /\
  (calculateRetryDelay attempt r <= inject_Z MAX_RETRY_DELAY_MS + 1000)%Q /\
  (Qmin (1000 * 2 ^ Z.of_nat attempt) 10000 <= calculateRetryDelay attempt r)%Q /\
  (forall later : nat, (attempt <= later)%nat -> cappedDelay attempt <= cappedDelay later).
Proof.
  intros Hr0 Hr1 j.
  assert (Hcap : (inject_Z (cappedDelay attempt)
                  == Qmin (1000 * 2 ^ Z.of_nat attempt) 10000)%Q).
  { unfold cappedDelay, MAX_RETRY_DELAY_MS.
    rewrite inject_Z_min, exponentialDelay_Q. reflexivity. }
  assert (Hj0 : (0 <= j)%Q) by (unfold j; lra).
  assert (Hj1 : (j < 1000)%Q) by (unfold j; lra).
  assert (Hle : (inject_Z (cappedDelay attempt) <= 10000)%Q).
  { change 10000%Q with (inject_Z 10000). rewrite <- Zle_Qle.
    apply cappedDelay_bounds. }
  repeat split; try assumption.
  - unfold calculateRetryDelay, specifiedDelay. rewrite Hcap. reflexivity.
  - unfold calculateRetryDelay, MAX_RETRY_DELAY_MS. fold j.
    change (inject_Z 10000) with 10000%Q. lra.
  - rewrite <- Hcap. unfold calculateRetryDelay. fold j. lra.
  - intros later Hlater. unfold cappedDelay.
    apply Z.min_le_compat_r, exponentialDelay_mono, Hlater.
Qed.

Lemma calculateRetryDelay_backoff_witness :
  (0 <= 1 # 2)%Q /\ (1 # 2 < 1)%Q
  /\ (calculateRetryDelay 1 (1 # 2) == specifiedDelay 1 ((1 # 2) * 1000))%Q
  /\ (calculateRetryDelay 1 (1 # 2) <= inject_Z MAX_RETRY_DELAY_MS + 1000)%Q.
Proof.
  assert (H0 : (0 <= 1 # 2)%Q) by (vm_compute; discriminate).
  assert (H1 : (1 # 2 < 1)%Q) by reflexivity.
  destruct (calculateRetryDelay_backoff 1 (1 # 2) H0 H1) as (_ & _ & Heq & Hle & _).
  repeat split; assumption.
Defined.

(** ** Retry-After *)


(** A hint that starts with a letter, as the day name of every HTTP date
    does, is no number for [parseInt]. *)
Lemma parseInt10_letter (c : ascii) (s : string) :
  isLetter c = true -> Js.parseInt10 (String c s) = None.
Proof.
  intros Hc. unfold Js.parseInt10.
  assert (Hw : Js.isWhiteSpace c = false).
  { revert Hc. destruct c as [[] [] [] [] [] [] [] []]; vm_compute; congruence. }
  assert (Hd : Js.isDigit c = false).
  { revert Hc. destruct c as [[] [] [] [] [] [] [] []]; vm_compute; congruence. }
  cbn [Js.trimStart]. rewrite Hw.
  destruct c as [[] [] [] [] [] [] [] []];
    try (vm_compute in Hc; discriminate Hc);
    cbn [Js.readDigits]; rewrite Hd; reflexivity.
Qed.

Lemma readDigits_acc (d : Decimal.uint) (acc : positive) :
  Js.readDigits true (Z.pos acc) (NilEmpty.string_of_uint d)
  = Some (Z.pos (Pos.of_uint_acc d acc)).
Proof.
  revert acc.
  induction d; intros acc; cbn [NilEmpty.string_of_uint Js.readDigits Pos.of_uint_acc];
    [reflexivity | ..];
    (match goal with
     | |- context [Js.isDigit ?c] => change (Js.isDigit c) with true
     end);
    cbv iota;
    (match goal with
     | |- context [Js.digitValue ?c] =>
         let v := eval vm_compute in (Js.digitValue c) in
         change (Js.digitValue c) with v
     end);
    rewrite <- IHd; f_equal; lia.
Qed.

Lemma readDigits_uint (d : Decimal.uint) :
  Js.readDigits true 0 (NilEmpty.string_of_uint d) = Some (Z.of_N (Pos.of_uint d)).
Proof.
  induction d; cbn [NilEmpty.string_of_uint Js.readDigits Pos.of_uint];
    [reflexivity | ..];
    (match goal with
     | |- context [Js.isDigit ?c] => change (Js.isDigit c) with true
     end);
    cbv iota;
    (match goal with
     | |- context [Js.digitValue ?c] =>
         let v := eval vm_compute in (Js.digitValue c) in
         change (Js.digitValue c) with v
     end);
    cbn [Z.mul Z.add];
    [exact IHd | apply (readDigits_acc d 1) | apply (readDigits_acc d 2)
     | apply (readDigits_acc d 3) | apply (readDigits_acc d 4)
     | apply (readDigits_acc d 5) | apply (readDigits_acc d 6)
     | apply (readDigits_acc d 7) | apply (readDigits_acc d 8)
     | apply (readDigits_acc d 9)].
Qed.


Lemma parseInt10_uint (d : Decimal.uint) :
  d <> Decimal.Nil ->
  Js.parseInt10 (NilEmpty.string_of_uint d) = Some (Z.of_N (Pos.of_uint d)).
Proof.
  intros Hd. rewrite <- readDigits_uint.
  destruct d; [congruence | ..]; reflexivity.
Qed.

Lemma numeral_nonempty (seconds : N) : numeral seconds <> "".
Proof.
  unfold numeral.
  destruct seconds as [| p]; [discriminate |].
  cbn [N.to_uint].
  pose proof (DecimalPos.Unsigned.to_uint_nonnil p) as Hp.
  destruct (Pos.to_uint p); [congruence | ..]; discriminate.
Qed.

Lemma parseInt10_numeral (seconds : N) :
  Js.parseInt10 (numeral seconds) = Some (Z.of_N seconds).
Proof.
  unfold numeral.
  assert (Hd : N.to_uint seconds <> Decimal.Nil).
  { destruct seconds as [| p]; [discriminate |].
    apply DecimalPos.Unsigned.to_uint_nonnil. }
  assert (Hs : NilZero.string_of_uint (N.to_uint seconds)
               = NilEmpty.string_of_uint (N.to_uint seconds)).
  { destruct (N.to_uint seconds); [congruence | ..]; reflexivity. }
  rewrite Hs, parseInt10_uint by exact Hd.
  change (Pos.of_uint (N.to_uint seconds)) with (N.of_uint (N.to_uint seconds)).
  rewrite DecimalN.Unsigned.of_to. reflexivity.
Qed.

Lemma retryLoop_unfold (env : Env) (maxRetries fuel attempt : nat) (clock : Q)
    (lastError : option JsError) :
  retryLoop env maxRetries (S fuel) attempt clock lastError
  = let '(t1, guarded) := guardedAttempt env attempt clock in
    match attemptStep env maxRetries attempt (drained t1 guarded) guarded with
    | Continue delay =>
        after [Attempted attempt clock t1; Slept delay]
          (retryLoop env maxRetries fuel (S attempt) (sleep (drained t1 guarded) delay)
             (match guarded with Throw e => Some e | Ok _ => lastError end))
    | Return response =>
        {| outcome := Ok response; finishedAt := t1;
           events := [Attempted attempt clock t1] |}
    | Raise error =>
        {| outcome := Throw error; finishedAt := t1;
           events := [Attempted attempt clock t1] |}
    end.
Proof. reflexivity. Qed.

(** Every iteration records its attempt first. *)
Lemma retryLoop_head_event (env : Env) (maxRetries fuel attempt : nat) (clock : Q)
    (lastError : option JsError) :
  exists rest,
    events (retryLoop env maxRetries (S fuel) attempt clock lastError)
    = Attempted attempt clock (fst (guardedAttempt env attempt clock)) :: rest.
Proof.
  rewrite retryLoop_unfold.
  destruct (guardedAttempt env attempt clock) as [t1 guarded]. cbn [fst].
  destruct (attemptStep env maxRetries attempt (drained t1 guarded) guarded);
    eexists; reflexivity.
Qed.

(** C3.  After a 429 answered to an attempt that has retries left, the loop
    reads the body away, waits
    [parseRetryAfter(header, calculateRetryDelay(attempt))] and then starts
    the next attempt: that attempt starts the wait (zero for a negative
    delay) after the body was read.  The wait is
    [min(1000 * s, MAX_RETRY_DELAY_MS)] when the hint is read as the
    whole-second count [s] (in particular for the decimal numeral of [s],
    and at least five seconds for the hint 5); it is
    [min(max(0, timestamp - now), MAX_RETRY_DELAY_MS)] when the hint is no
    number and parses as a date; it is the exponential backoff delay when the
    hint is absent, empty or parses as neither. *)
Theorem retry_after_wait (env : Env) (maxRetries fuel attempt : nat)
    (clock t1 : Q) (lastError : option JsError) (response : Response) :
  guardedAttempt env attempt clock = (t1, Ok response) ->
  status response = 429 ->
  (attempt < maxRetries)%nat ->
  let resumed := (t1 + bodyTime response)%Q in
  let fallback := calculateRetryDelay attempt (random env attempt) in
  let now := Qfloor resumed in
  let hint := retryAfterHeader response in
  let delay := parseRetryAfter (parseDate env) now hint fallback in
  attemptStep env maxRetries attempt resumed (Ok response) = Continue delay
  /\ (exists rest,
        waits (retryLoop env maxRetries (S fuel) attempt clock lastError) = delay :: rest)
  /\ (exists finished rest,
        events (retryLoop env maxRetries (S (S fuel)) attempt clock lastError)
        = Attempted attempt clock t1 :: Slept delay
          :: Attempted (S attempt) (resumed + Qmax 0 delay)%Q finished :: rest)
  /\ (forall h s, hint = Some h -> h <> "" -> Js.parseInt10 h = Some s ->
        delay = inject_Z (Z.min (s * 1000) MAX_RETRY_DELAY_MS))
  /\ (forall seconds : N, hint = Some (numeral seconds) ->
        delay = inject_Z (Z.min (Z.of_N seconds * 1000) MAX_RETRY_DELAY_MS))
  /\ (hint = Some "5" -> (5000 <= delay)%Q)
  /\ (forall h timestamp, hint = Some h -> h <> "" -> Js.parseInt10 h = None ->
        parseDate env h = Some timestamp ->
        delay = inject_Z (Z.min (Z.max 0 (timestamp - now)) MAX_RETRY_DELAY_MS))
  /\ (forall c h timestamp, hint = Some (String c h) -> isLetter c = true ->
        parseDate env (String c h) = Some timestamp ->
        delay = inject_Z (Z.min (Z.max 0 (timestamp - now)) MAX_RETRY_DELAY_MS))
  /\ (hint = None \/ hint = Some "" -> delay = fallback)
  /\ (forall h, hint = Some h -> Js.parseInt10 h = None -> parseDate env h = None ->
        delay = fallback).
Proof.
  intros Hg Hs Hlt resumed fallback now hint delay.
  assert (Hstep : attemptStep env maxRetries attempt resumed (Ok response) = Continue delay).
  { unfold attemptStep. rewrite Hs.
    apply Nat.ltb_lt in Hlt. rewrite Hlt. reflexivity. }
  assert (Hnum : forall h s, hint = Some h -> h <> "" -> Js.parseInt10 h = Some s ->
                 delay = inject_Z (Z.min (s * 1000) MAX_RETRY_DELAY_MS)).
  { intros h s Hh Hne Hp. unfold delay, parseRetryAfter. rewrite Hh.
    destruct h as [| c h']; [congruence |]. rewrite Hp. reflexivity. }
  split; [exact Hstep |].
  split.
  { rewrite retryLoop_unfold, Hg. cbn [drained]. fold resumed. rewrite Hstep.
    unfold waits, after. cbn [events flat_map app].
    eexists. reflexivity. }
  split.
  { rewrite retryLoop_unfold, Hg. cbn [drained]. fold resumed. rewrite Hstep.
    destruct (retryLoop_head_event env maxRetries fuel (S attempt) (sleep resumed delay)
                (match Ok response with Throw e => Some e | Ok _ => lastError end))
      as [rest Hrest].
    unfold after. cbn [events]. rewrite Hrest. cbn [app].
    eexists. eexists. reflexivity. }
  split; [exact Hnum |].
  split.
  { intros seconds Hh.
    apply (Hnum (numeral seconds) (Z.of_N seconds) Hh (numeral_nonempty seconds)).
    apply parseInt10_numeral. }
  split.
  { intros Hh. rewrite (Hnum "5" 5 Hh) by (discriminate || reflexivity).
    vm_compute. discriminate. }
  assert (Hdate : forall h timestamp, hint = Some h -> h <> "" ->
                  Js.parseInt10 h = None -> parseDate env h = Some timestamp ->
                  delay = inject_Z (Z.min (Z.max 0 (timestamp - now)) MAX_RETRY_DELAY_MS)).
  { intros h timestamp Hh Hne Hp Hd. unfold delay, parseRetryAfter. rewrite Hh.
    destruct h as [| c h']; [congruence |]. rewrite Hp, Hd. reflexivity. }
  split; [exact Hdate |].
  split.
  { intros c h timestamp Hh Hc Hd.
    apply (Hdate (String c h) timestamp Hh); [discriminate | | exact Hd].
    apply parseInt10_letter. exact Hc. }
  split.
  { intros [Hh | Hh]; unfold delay, parseRetryAfter; rewrite Hh; reflexivity. }
  intros h Hh Hp Hd. unfold delay, parseRetryAfter. rewrite Hh.
  destruct h as [| c h']; [reflexivity |]. rewrite Hp, Hd. reflexivity.
Qed.

(** ** Retrying dispatcher *)




Lemma isRetryableError_not_abort (e : JsError) :
  isRetryableError e = true -> isAbortError e = false.
Proof. destruct e; cbn; intros H; try reflexivity; discriminate H. Qed.

Lemma attemptStep_retryable (env : Env) (maxRetries attempt : nat) (t1 : Q)
    (guarded : Completion Response) :
  retryableFailure guarded = true -> (attempt < maxRetries)%nat ->
  exists delay, attemptStep env maxRetries attempt t1 guarded = Continue delay.
Proof.
  intros Hr Hlt. apply Nat.ltb_lt in Hlt.
  destruct guarded as [response | e]; unfold attemptStep;
    cbn [retryableFailure] in Hr.
  - unfold retryableStatus in Hr. rewrite Hlt, !andb_true_r.
    destruct (500 <=? status response).
    + eexists; reflexivity.
    + cbn [orb] in Hr. rewrite Hr. eexists; reflexivity.
  - rewrite (isRetryableError_not_abort e Hr), Hr, Hlt. eexists; reflexivity.
Qed.

Lemma attemptStep_exhausted (env : Env) (maxRetries attempt : nat) (t1 : Q)
    (guarded : Completion Response) :
  (maxRetries <= attempt)%nat ->
  attemptStep env maxRetries attempt t1 guarded
  = match guarded with Ok response => Return response | Throw e => Raise e end.
Proof.
  intros Hle. apply Nat.ltb_ge in Hle.
  destruct guarded as [response | e]; unfold attemptStep.
  - rewrite Hle, !andb_false_r. reflexivity.
  - rewrite Hle, andb_false_r. destruct (isAbortError e); reflexivity.
Qed.


Lemma attempts_after_attempt_sleep {A : Type} (n : nat) (a b d : Q) (r : Run A) :
  attempts (after [Attempted n a b; Slept d] r) = S (attempts r).
Proof. reflexivity. Qed.

Lemma waits_after_attempt_sleep {A : Type} (n : nat) (a b d : Q) (r : Run A) :
  waits (after [Attempted n a b; Slept d] r) = d :: waits r.
Proof. reflexivity. Qed.

(** Every iteration records its attempt first. *)
Lemma retryLoop_first_event (env : Env) (maxRetries fuel attempt : nat) (clock : Q)
    (lastError : option JsError) :
  In (Attempted attempt clock (fst (guardedAttempt env attempt clock)))
     (events (retryLoop env maxRetries (S fuel) attempt clock lastError)).
Proof.
  rewrite retryLoop_unfold.
  destruct (guardedAttempt env attempt clock) as [t1 guarded].
  destruct (attemptStep env maxRetries attempt (drained t1 guarded) guarded); left; reflexivity.
Qed.

(** When every attempt of the run ends in a retryable failure, the loop
    performs every iteration it has, waits between them, and settles as the
    guarded attempt of the last one. *)
Lemma retryLoop_all_retryable (env : Env) (maxRetries : nat) :
  forall fuel attempt clock lastError,
    (attempt + S fuel = S maxRetries)%nat ->
    let run := retryLoop env maxRetries (S fuel) attempt clock lastError in
    allAttemptsRetryable env run ->
    attempts run = S fuel
    /\ List.length (waits run) = fuel
    /\ exists started finished guarded,
         last (events run) (Slept 0) = Attempted maxRetries started finished
         /\ guardedAttempt env maxRetries started = (finished, guarded)
         /\ retryableFailure guarded = true
         /\ finishedAt run = finished
         /\ outcome run = guarded.
Proof.
  intros fuel.
  induction fuel as [| fuel IH]; intros attempt clock lastError Hsum run Hall.
  - assert (attempt = maxRetries) by lia. subst attempt.
    pose proof (Hall _ _ _ (retryLoop_first_event env maxRetries 0 maxRetries clock lastError))
      as Hr.
    subst run. rewrite retryLoop_unfold.
    destruct (guardedAttempt env maxRetries clock) as [t1 guarded] eqn:Hg.
    cbn [fst snd] in Hr.
    rewrite attemptStep_exhausted by lia.
    destruct guarded as [response | e]; cbn; (split; [reflexivity |]);
      (split; [reflexivity |]);
      exists clock, t1; eexists; (split; [reflexivity |]);
      (split; [exact Hg |]); (split; [exact Hr |]); split; reflexivity.
  - pose proof (Hall _ _ _ (retryLoop_first_event env maxRetries (S fuel) attempt clock lastError))
      as Hr.
    unfold allAttemptsRetryable in Hall.
    subst run. rewrite retryLoop_unfold in Hall |- *.
    destruct (guardedAttempt env attempt clock) as [t1 guarded] eqn:Hg.
    cbn [fst snd] in Hr.
    destruct (attemptStep_retryable env maxRetries attempt (drained t1 guarded) guarded Hr ltac:(lia))
      as [delay Hstep].
    rewrite Hstep in Hall |- *.
    set (lastError' := match guarded with Throw e => Some e | Ok _ => lastError end) in *.
    assert (Hall' : allAttemptsRetryable env
                      (retryLoop env maxRetries (S fuel) (S attempt)
                         (sleep (drained t1 guarded) delay) lastError')).
    { intros n a b Hin. apply (Hall n a b).
      unfold after. cbn [events]. right. right. exact Hin. }
    specialize (IH (S attempt) (sleep (drained t1 guarded) delay) lastError' ltac:(lia) Hall').
    destruct IH as (Hn & Hw & started & finished & g & Hlast & Hga & Hret & Hfin & Hout).
    split; [rewrite attempts_after_attempt_sleep, Hn; reflexivity |].
    split; [rewrite waits_after_attempt_sleep; cbn [List.length]; rewrite Hw; reflexivity |].
    exists started, finished, g. repeat split; try assumption.
    unfold after. cbn [events].
    remember (events (retryLoop env maxRetries (S fuel) (S attempt)
                        (sleep (drained t1 guarded) delay) lastError')) as es eqn:Hes.
    destruct es as [| e0 es'].
    + exfalso. unfold attempts in Hn. rewrite <- Hes in Hn. discriminate Hn.
    + exact Hlast.
Qed.

(** C1, on the code.  [isRetryableError] takes a [TypeError] for a network
    failure only when its message contains [fetch].  A network failure that
    the browser words [Load failed] is therefore not retried: the
    invocation makes one attempt, does not wait, and rejects with that
    error, whose message [analyze] publishes; the same failure worded
    [Failed to fetch] uses the three attempts and the two waits. *)
Theorem network_failure_not_retried :
  let run := analyzeTranscript Cases.loadFailed 0 in
  recognisedFailure (snd (guardedAttempt Cases.loadFailed 0 0)) = false
  /\ isRetryableError (TypeError "Load failed") = false
  /\ events run = [Attempted 0 0 100]
  /\ attempts run = 1%nat
  /\ waits run = []
  /\ outcome run = Throw (TypeError "Load failed")
  /\ publications (analyze Cases.loadFailed 0)
     = [SetError (Some (formatErrorMessage (TypeError "Load failed")))]
  /\ attempts (analyzeTranscript Cases.failedToFetch 0) = 3%nat
  /\ List.length (waits (analyzeTranscript Cases.failedToFetch 0)) = 2%nat
  /\ outcome (analyzeTranscript Cases.failedToFetch 0) = Throw (TypeError "Failed to fetch").
Proof. repeat split; vm_compute; reflexivity. Qed.

Lemma recognisedFailure_retryable (guarded : Completion Response) :
  recognisedFailure guarded = true -> retryableFailure guarded = true.
Proof.
  destruct guarded as [response | e]; cbn [recognisedFailure retryableFailure].
  - intros H. exact H.
  - destruct e; cbn [isRetryableError]; intros H; try discriminate H; try reflexivity.
    exact H.
Qed.

Lemma retryableStatus_not_ok (response : Response) :
  retryableStatus (status response) = true -> ok response = false.
Proof.
  unfold ok, retryableStatus. intros Hr.
  apply orb_true_iff in Hr. destruct Hr as [Hr | Hr].
  - apply Z.leb_le in Hr. apply andb_false_iff. right. apply Z.leb_gt. lia.
  - apply Z.eqb_eq in Hr. apply andb_false_iff. right. apply Z.leb_gt. lia.
Qed.

(** X16.  When every attempt of an invocation ends in a failure that the
    specification lists as retryable and the code recognises (a 5xx or 429
    response, a timeout, a [TypeError] whose message contains [fetch]), the
    invocation, with the default budget, makes exactly three attempts and
    waits twice in between, and [fetchWithRetry] settles as the third
    attempt did.  A thrown error is rethrown and [analyze] publishes its
    message.  A response is handed to [handleResponse], which throws an
    [ApiError] with the status, flagged retryable, whatever
    [response.json()] settles with other than [null]; [analyze] publishes
    its message. *)
Theorem listed_failures_exhaust_budget (env : Env) (clock : Q) :
  let run := analyzeTranscript env clock in
  (forall n started finished,
     In (Attempted n started finished) (events run) ->
     recognisedFailure (snd (guardedAttempt env n started)) = true) ->
  attempts run = 3%nat
  /\ List.length (waits run) = 2%nat
  /\ exists started finished guarded,
       last (events run) (Slept 0) = Attempted 2 started finished
       /\ guardedAttempt env 2 started = (finished, guarded)
       /\ outcome (fetchWithRetry env MAX_RETRIES clock) = guarded
       /\ match guarded with
          | Throw e =>
              outcome run = Throw e
              /\ isAbortError e = false
              /\ publications (analyze env clock)
                 = [SetError (Some (formatErrorMessage e))]
          | Ok response =>
              ok response = false
              /\ (forall nullRead body, body <> JsonNull ->
                    exists message details,
                      handleResponseJson nullRead response body
                      = Throw (ApiError message (status response) details true))
              /\ exists message details,
                   outcome run = Throw (ApiError message (status response) details true)
                   /\ publications (analyze env clock)
                      = [SetError (Some (formatErrorMessage
                                           (ApiError message (status response) details true)))]
          end.
Proof.
  intros run Hlisted.
  assert (Hall : allAttemptsRetryable env run).
  { intros n started finished Hin.
    apply recognisedFailure_retryable. apply (Hlisted n started finished Hin). }
  destruct (retryLoop_all_retryable env MAX_RETRIES 2 0 clock None eq_refl Hall)
    as (Hn & Hw & started & finished & guarded & Hlast & Hg & Hr & Hfin & Hout).
  change MAX_RETRIES with 2%nat in Hn, Hw, Hlast, Hg, Hfin, Hout.
  split; [exact Hn |]. split; [exact Hw |].
  assert (Hrun : outcome run = (x <- guarded ;; handleResponse x)).
  { unfold run, analyzeTranscript, andThen. cbn [outcome].
    unfold fetchWithRetry, MAX_RETRIES. rewrite Hout. reflexivity. }
  exists started, finished, guarded.
  split; [exact Hlast |]. split; [exact Hg |].
  split; [unfold fetchWithRetry, MAX_RETRIES; exact Hout |].
  destruct guarded as [response | e'].
  - cbn [retryableFailure] in Hr. cbn [bind] in Hrun.
    pose proof (retryableStatus_not_ok response Hr) as Hok.
    split; [exact Hok |].
    split.
    { intros nullRead body Hbody. unfold handleResponseJson.
      rewrite Hok. cbn [negb]. fold (retryableStatus (status response)). rewrite Hr.
      destruct body as [e | | j]; [| contradiction Hbody; reflexivity |];
        do 2 eexists; reflexivity. }
    unfold handleResponse in Hrun. rewrite Hok in Hrun. cbn [negb] in Hrun.
    fold (retryableStatus (status response)) in Hrun. rewrite Hr in Hrun.
    do 2 eexists. split; [exact Hrun |].
    unfold analyze. fold run. rewrite Hrun. reflexivity.
  - cbn [retryableFailure] in Hr. cbn [bind] in Hrun.
    split; [exact Hrun |].
    split; [exact (isRetryableError_not_abort e' Hr) |].
    unfold analyze. fold run. rewrite Hrun. cbn.
    rewrite (isRetryableError_not_abort e' Hr). reflexivity.
Qed.

(** Without a caller's signal, an attempt whose upstream answers 5xx or 429,
    or fails with a timeout or a [TypeError] that mentions [fetch], ends in
    a listed failure whenever it is made: either that answer arrives, or
    the deadline turns the attempt into a timeout. *)
Lemma steady_recognised (up : Upstream) :
  recognisedFailure (match settles up with
                     | Resolves r => Ok r
                     | Rejects e => Throw e
                     end) = true ->
  forall n t0, recognisedFailure (snd (guardedAttempt (Samples.steady up None) n t0)) = true.
Proof.
  intros Hup n t0.
  unfold guardedAttempt, fetchWithTimeout, awaitFetch, controllerAbortsAt.
  cbn [Samples.steady userAbort upstream].
  destruct (Qltb _ _); cbn [snd guardSettle].
  - destruct (settles up) as [r | e]; cbn [guardSettle].
    + exact Hup.
    + pose proof (isRetryableError_not_abort e (recognisedFailure_retryable _ Hup)) as Hna.
      rewrite Hna. exact Hup.
  - reflexivity.
Qed.

Lemma listed_failures_exhaust_budget_witness :
  attempts (analyzeTranscript Samples.slowOutage 0) = 3%nat
  /\ List.length (waits (analyzeTranscript Samples.slowOutage 0)) = 2%nat.
Proof.
  destruct (listed_failures_exhaust_budget Samples.slowOutage 0
              (fun n started finished _ =>
                 steady_recognised (Samples.answers 15000 Samples.unavailable) eq_refl
                                   n started))
    as (Hn & Hw & _).
  split; assumption.
Defined.

Lemma retry_after_wait_witness :
  (5000 <= parseRetryAfter (parseDate Samples.throttled)
             (Qfloor (100 + bodyTime Samples.rateLimited))
             (retryAfterHeader Samples.rateLimited)
             (calculateRetryDelay 0 (random Samples.throttled 0)))%Q
  /\ exists finished rest,
       events (retryLoop Samples.throttled 2 3 0 0 None)
       = Attempted 0 0 100 :: Slept 5000 :: Attempted 1 5100 finished :: rest.
Proof.
  assert (Hg : guardedAttempt Samples.throttled 0 0 = (100%Q, Ok Samples.rateLimited))
    by reflexivity.
  assert (Hlt : (0 < 2)%nat) by lia.
  destruct (retry_after_wait Samples.throttled 2 1 0 0 100 None Samples.rateLimited
              Hg eq_refl Hlt) as (_ & _ & (finished & rest & Hev) & _ & _ & Hfive & _).
  split; [exact (Hfive eq_refl) |].
  exists finished, rest. rewrite Hev. reflexivity.
Defined.

(** C4.  A response with a 4xx status other than 429 ends the loop in the
    iteration that received it: no wait and no further attempt follow.
    [handleResponse] turns it into an [ApiError] that is not retryable and
    carries the body's [detail] as message (the status text when there is
    none) and its [errors] as details.  Received by the first attempt, it is
    surfaced after exactly one attempt and [analyze] publishes its message. *)
Theorem client_failure_not_retried (env : Env) (maxRetries fuel attempt : nat)
    (clock t1 : Q) (lastError : option JsError) (response : Response) :
  guardedAttempt env attempt clock = (t1, Ok response) ->
  400 <= status response < 500 ->
  status response <> 429 ->
  let failure :=
    ApiError
      (Js.orElse (match json response with Some j => detail j | None => None end)
                 ("Request failed: " ++ statusText response))
      (status response)
      (match json response with Some j => errors j | None => None end)
      false in
  retryLoop env maxRetries (S fuel) attempt clock lastError
  = {| outcome := Ok response; finishedAt := t1;
       events := [Attempted attempt clock t1] |}
  /\ handleResponse response = Throw failure
  /\ (forall c d es v,
        json response = Some {| detail := Some (String c d); errors := es; value := v |} ->
        failure = ApiError (String c d) (status response) es false)
  /\ isRetryableError failure = false
  /\ (attempt = 0%nat ->
      let run := analyzeTranscript env clock in
      attempts run = 1%nat /\ waits run = [] /\ outcome run = Throw failure
      /\ publications (analyze env clock) = [SetError (Some (formatErrorMessage failure))]).
Proof.
  intros Hg Hs H429 failure.
  assert (Hge : (500 <=? status response) = false) by (apply Z.leb_gt; lia).
  assert (Hne : (status response =? 429) = false) by (apply Z.eqb_neq; exact H429).
  assert (Hstep : forall m t, attemptStep env m attempt t (Ok response) = Return response).
  { intros m t. unfold attemptStep. rewrite Hge, Hne. reflexivity. }
  assert (Hloop : forall m f,
            retryLoop env m (S f) attempt clock lastError
            = {| outcome := Ok response; finishedAt := t1;
                 events := [Attempted attempt clock t1] |}).
  { intros m f. rewrite retryLoop_unfold, Hg, Hstep. reflexivity. }
  assert (Hok : ok response = false).
  { unfold ok. apply andb_false_iff. right. apply Z.leb_gt. lia. }
  assert (Hh : handleResponse response = Throw failure).
  { unfold handleResponse. rewrite Hok, Hge, Hne. reflexivity. }
  split; [apply Hloop |]. split; [exact Hh |].
  split.
  { intros c d es v Hj. unfold failure. rewrite Hj. reflexivity. }
  split.
  { unfold failure. cbn [isRetryableError]. rewrite Hge, Hne. reflexivity. }
  intros H0 run. subst attempt.
  assert (Hrun : fetchWithRetry env MAX_RETRIES clock
                 = {| outcome := Ok response; finishedAt := t1;
                      events := [Attempted 0 clock t1] |}).
  { unfold fetchWithRetry. 
    rewrite retryLoop_unfold, Hg, Hstep. reflexivity. }
  assert (Hout : outcome run = Throw failure).
  { unfold run, analyzeTranscript, andThen. rewrite Hrun. cbn [outcome bind]. exact Hh. }
  unfold run, analyze, analyzeTranscript, andThen, attempts, waits in *.
  cbn [events outcome] in *. rewrite Hrun in *. cbn [events outcome bind] in *.
  repeat split; try reflexivity; try exact Hout.
  rewrite Hh. reflexivity.
Qed.

Lemma client_failure_not_retried_witness :
  attempts (analyzeTranscript Samples.rejected 0) = 1%nat
  /\ outcome (analyzeTranscript Samples.rejected 0)
     = Throw (ApiError "Validation failed" 422 (Some ["transcript: too short"]) false)
  /\ publications (analyze Samples.rejected 0)
     = [SetError (Some "Validation failed: transcript: too short")].
Proof.
  assert (Hg : guardedAttempt Samples.rejected 0 0 = (100%Q, Ok Samples.unprocessable))
    by reflexivity.
  assert (Hs : 400 <= status Samples.unprocessable < 500) by (cbn; lia).
  assert (Hn : status Samples.unprocessable <> 429) by (cbn; lia).
  destruct (client_failure_not_retried Samples.rejected 2 2 0 0 100 None
              Samples.unprocessable Hg Hs Hn) as (_ & _ & _ & _ & Hfirst).
  destruct (Hfirst eq_refl) as (Hone & _ & Hout & Hpub).
  repeat split; assumption.
Defined.

(** [handleResponse] is [handleResponseJson] at the settlement that the
    typed body stands for. *)
Lemma handleResponse_general (nullRead : string) (response : Response) :
  handleResponseJson nullRead response (jsonOf response)
  = match handleResponse response with
    | Ok v => Ok (Some v)
    | Throw e => Throw e
    end.
Proof.
  unfold handleResponseJson, handleResponse, jsonOf.
  destruct (negb (ok response)); destruct (json response) as [j |]; reflexivity.
Qed.

(** C10, on the code.  A 503 whose body is the JSON text [null]:
    [response.json()] resolves, so the [catch] that guards it does not
    apply, and reading [errorData.detail] throws a [TypeError].  No
    [ApiError] is built and no flag stored, [isRetryableError] rejects the
    error that is thrown, and the loop retries the response while retries
    are left: the determinations disagree on a status that is at least
    500. *)
Theorem null_body_breaks_agreement :
  ok Cases.bare503 = false
  /\ retryableStatus (status Cases.bare503) = true
  /\ handleResponseJson Cases.nullRead Cases.bare503 JsonNull
     = Throw (TypeError Cases.nullRead)
  /\ isRetryableError (TypeError Cases.nullRead) = false
  /\ (forall env t1,
        attemptStep env MAX_RETRIES 0 t1 (Ok Cases.bare503)
        = Continue (calculateRetryDelay 0 (random env 0)))
  /\ (forall e, handleResponseJson Cases.nullRead Cases.bare503 (JsonRejects e)
                = Throw (ApiError "Request failed: Service Unavailable" 503 None true)).
Proof. repeat split. Qed.

(** X18.  For a response that is not 2xx and whose [response.json()]
    settles with anything but [null], [handleResponse] throws an
    [ApiError] with the status of the response, and the flag it stores,
    [isRetryableError] applied to that error, and the decision of the loop
    to retry the response while retries are left all hold exactly when the
    status is at least 500 or equal to 429. *)
Theorem retryability_agrees_off_null (nullRead : string) (response : Response)
    (body : JsonResult) :
  ok response = false ->
  body <> JsonNull ->
  exists message details flag,
    handleResponseJson nullRead response body
    = Throw (ApiError message (status response) details flag)
    /\ flag = retryableStatus (status response)
    /\ isRetryableError (ApiError message (status response) details flag)
       = retryableStatus (status response)
    /\ (forall env maxRetries attempt t1, (attempt < maxRetries)%nat ->
          isContinue (attemptStep env maxRetries attempt t1 (Ok response))
          = retryableStatus (status response))
    /\ (retryableStatus (status response) = true
        <-> 500 <= status response \/ status response = 429).
Proof.
  intros Hok Hbody.
  unfold handleResponseJson. rewrite Hok. cbn [negb].
  assert (Hrest :
    (forall env maxRetries attempt t1, (attempt < maxRetries)%nat ->
          isContinue (attemptStep env maxRetries attempt t1 (Ok response))
          = retryableStatus (status response))
    /\ (retryableStatus (status response) = true
        <-> 500 <= status response \/ status response = 429)).
  { split.
    - intros env maxRetries attempt t1 Hlt. apply Nat.ltb_lt in Hlt.
      unfold attemptStep, retryableStatus. rewrite Hlt, !andb_true_r.
      destruct (500 <=? status response); [reflexivity |].
      destruct (status response =? 429); reflexivity.
    - unfold retryableStatus. rewrite orb_true_iff, Z.leb_le, Z.eqb_eq. reflexivity. }
  destruct body as [e | | j]; [| contradiction Hbody; reflexivity |];
    do 3 eexists; (split; [reflexivity |]); (split; [reflexivity |]);
    (split; [reflexivity | exact Hrest]).
Qed.

Lemma retryability_agrees_off_null_witness :
  exists message details flag,
    handleResponseJson Cases.nullRead Samples.unavailable (jsonOf Samples.unavailable)
    = Throw (ApiError message 503 details flag)
    /\ flag = true.
Proof.
  assert (Hbody : jsonOf Samples.unavailable <> JsonNull) by discriminate.
  destruct (retryability_agrees_off_null Cases.nullRead Samples.unavailable
              (jsonOf Samples.unavailable) eq_refl Hbody)
    as (message & details & flag & Hh & Hflag & _).
  exists message, details, flag. split; [exact Hh | exact Hflag].
Defined.

(** ** Timeout guard and cancellation *)

Lemma Qltb_false (a b : Q) : Qltb a b = false <-> (b <= a)%Q.
Proof.
  unfold Qltb. rewrite negb_false_iff. apply Qle_bool_iff.
Qed.

Lemma Qltb_true (a b : Q) : Qltb a b = true <-> (a < b)%Q.
Proof.
  unfold Qltb. rewrite negb_true_iff. split.
  - intros H. apply Qnot_le_lt. intros Hle. apply Qle_bool_iff in Hle. congruence.
  - intros H. destruct (Qle_bool b a) eqn:E; [| reflexivity].
    apply Qle_bool_iff in E. apply Qlt_not_le in H. contradiction.
Qed.

Lemma controllerAbortsAt_deadline (timeoutMs : Z) (t0 : Q) (userAbort : option Q) :
  (controllerAbortsAt timeoutMs t0 userAbort <= t0 + inject_Z timeoutMs)%Q.
Proof.
  unfold controllerAbortsAt. destruct userAbort as [u |]; [| apply Qle_refl].
  destruct (Qltb t0 u); [apply Q.le_min_r | apply Qle_refl].
Qed.

(** The timer bounds every attempt by itself: an attempt started at [t0]
    has settled at [t0 + DEFAULT_TIMEOUT_MS]. *)
Lemma guardedAttempt_within_timeout (env : Env) (attempt : nat) (t0 : Q) :
  (fst (guardedAttempt env attempt t0) <= t0 + inject_Z DEFAULT_TIMEOUT_MS)%Q.
Proof.
  unfold guardedAttempt, fetchWithTimeout, awaitFetch.
  pose proof (controllerAbortsAt_deadline DEFAULT_TIMEOUT_MS t0 (userAbort env)) as Hd.
  destruct (Qltb _ _) eqn:E; cbn [fst].
  - apply Qltb_true in E. apply Qlt_le_weak. eapply Qlt_le_trans; eassumption.
  - exact Hd.
Qed.

Lemma analyzeTranscript_outcome (env : Env) (clock : Q) :
  outcome (analyzeTranscript env clock)
  = (x <- outcome (fetchWithRetry env MAX_RETRIES clock) ;; handleResponse x).
Proof. reflexivity. Qed.

(** An invocation that ends in a cancellation calls neither [setResult] nor
    [setError] with a message: the document stays and no error is shown. *)
Lemma settled_cancelled (e : JsError) (st : HookState) :
  isAbortError e = true ->
  publications (analyzeStart ++ analyzeSettled (Throw e)) = []
  /\ publications (refineStart ++ refineSettled (Throw e)) = []
  /\ result (applySetters st (analyzeStart ++ analyzeSettled (Throw e))) = result st
  /\ error (applySetters st (analyzeStart ++ analyzeSettled (Throw e))) = None
  /\ result (applySetters st (refineStart ++ refineSettled (Throw e))) = result st
  /\ error (applySetters st (refineStart ++ refineSettled (Throw e))) = None.
Proof.
  intros He. unfold analyzeSettled, refineSettled. rewrite He.
  repeat split; reflexivity.
Qed.

(** ** Operation lifecycle *)

Lemma applySetters_app (st : HookState) (l1 l2 : list Setter) :
  applySetters st (l1 ++ l2) = applySetters (applySetters st l1) l2.
Proof. apply fold_left_app. Qed.

(** C7.  A [refine] whose request ends in an error never calls [setResult]:
    the document that was published before it is still the result.  When
    the error is a failure, its message is the only thing published; when it
    is a cancellation, nothing is published and no error is shown, and the
    same holds for an [analyze] that ends in a cancellation.  A [refine]
    without a document to refine sends nothing and publishes only its local
    error. *)
Theorem refine_failure_keeps_document (env : Env) (clock : Q) (st : HookState)
    (doc : AnalysisResponse) (feedback : string) (section : SectionType)
    (e : JsError) :
  result st = Some doc ->
  outcome (refineWithFeedback env clock) = Throw e ->
  let calls := snd (refine env clock (result st) feedback section) in
  let st' := applySetters st calls in
  result st' = Some doc
  /\ (forall published, ~ In (SetResult published) calls)
  /\ (isAbortError e = false ->
      publications calls = [SetError (Some (formatErrorMessage e))]
      /\ error st' = Some (formatErrorMessage e))
  /\ (isAbortError e = true -> publications calls = [] /\ error st' = None)
  /\ (forall e', outcome (analyzeTranscript env clock) = Throw e' ->
      isAbortError e' = true ->
      publications (analyze env clock) = []
      /\ result (applySetters st (analyze env clock)) = Some doc
      /\ error (applySetters st (analyze env clock)) = None)
  /\ (forall st0, result st0 = None ->
      refine env clock (result st0) feedback section
      = (None, [SetError (Some noResultMessage)])
      /\ result (applySetters st0 [SetError (Some noResultMessage)]) = None).
Proof.
  intros Hres Hout calls st'.
  assert (Hcalls : calls = (refineStart ++ refineSettled (Throw e))%list).
  { unfold calls, refine. rewrite Hres. cbn [snd]. rewrite Hout. reflexivity. }
  unfold st'. rewrite Hcalls. clear st' Hcalls calls.
  unfold refineSettled.
  destruct (isAbortError e) eqn:Hab.
  - split; [cbn; exact Hres |].
    split.
    { intros published Hin. cbn in Hin.
      repeat (destruct Hin as [Hin | Hin]; [discriminate Hin |]). exact Hin. }
    split; [intros Hf; discriminate Hf |].
    split; [intros _; split; reflexivity |].
    split.
    { intros e' Hout' Hab'. unfold analyze. rewrite Hout'.
      destruct (settled_cancelled e' st Hab') as (Hp & _ & Hr & He & _).
      rewrite Hr, Hres. repeat split; assumption. }
    intros st0 H0. rewrite H0. split; [reflexivity | exact H0].
  - split; [cbn; exact Hres |].
    split.
    { intros published Hin. cbn in Hin.
      repeat (destruct Hin as [Hin | Hin]; [discriminate Hin |]). exact Hin. }
    split; [intros _; split; reflexivity |].
    split; [intros Hf; discriminate Hf |].
    split.
    { intros e' Hout' Hab'. unfold analyze. rewrite Hout'.
      destruct (settled_cancelled e' st Hab') as (Hp & _ & Hr & He & _).
      rewrite Hr, Hres. repeat split; assumption. }
    intros st0 H0. rewrite H0. split; [reflexivity | exact H0].
Qed.

Lemma refine_failure_keeps_document_witness :
  result (applySetters
            {| result := Some (Samples.document "current"); loading := false;
               refining := false; error := None |}
            (snd (refine Samples.rejected 0 (Some (Samples.document "current"))
                         "make it formal" all_sections)))
  = Some (Samples.document "current").
Proof.
  exact (proj1 (refine_failure_keeps_document Samples.rejected 0
                  {| result := Some (Samples.document "current"); loading := false;
                     refining := false; error := None |}
                  (Samples.document "current") "make it formal" all_sections
                  (ApiError "Validation failed" 422 (Some ["transcript: too short"]) false)
                  eq_refl eq_refl)).
Defined.

(** ** Structured document at the two boundaries *)

(** C8, as the code has it.  The client validates at neither boundary:
    [handleResponse] resolves with the parsed body of every 2xx response as
    it is, and [refine] sends the document it holds as [original_response]
    as it is, whatever [hasMinimumContent] says of it.  Both crossings thus
    let every document through alike, neither accepting nor rejecting by
    its content. *)
Theorem document_crosses_unvalidated (response : Response) (j : Json) :
  ok response = true ->
  json response = Some j ->
  handleResponse response = Ok (value j)
  /\ analyzeSettled (handleResponse response) = [SetResult (value j); SetLoading false]
  /\ forall env clock feedback section,
       fst (refine env clock (Some (value j)) feedback section)
       = Some {| original_response := value j;
                 feedback := Js.trim feedback;
                 section_to_edit := section |}.
Proof.
  intros Hok Hj.
  assert (Hh : handleResponse response = Ok (value j)).
  { unfold handleResponse. rewrite Hok, Hj. reflexivity. }
  split; [exact Hh |]. split; [rewrite Hh; reflexivity |].
  intros env clock fb section. reflexivity.
Qed.

Lemma document_crosses_unvalidated_witness :
  handleResponse (Samples.success (Samples.document "report"))
  = Ok (Samples.document "report").
Proof.
  exact (proj1 (document_crosses_unvalidated
                  (Samples.success (Samples.document "report"))
                  {| detail := None; errors := None; value := Samples.document "report" |}
                  eq_refl eq_refl)).
Defined.

(** C8, as stated, fails: a document whose [draft_email.to] is empty and
    whose description has fewer than ten characters does not meet the
    minimum content, yet it is accepted from an [analyze] response and
    published, and it is sent back as it is in a refinement request. *)
Lemma thin_document_accepted_and_sent :
  hasMinimumContent Samples.thinDocument = false
  /\ handleResponse (Samples.success Samples.thinDocument) = Ok Samples.thinDocument
  /\ publications
       (analyze (Samples.steady (Samples.answers 100 (Samples.success Samples.thinDocument))
                                None) 0)
     = [SetResult Samples.thinDocument]
  /\ fst (refine Samples.rejected 0 (Some Samples.thinDocument) "make it formal" all_sections)
     = Some {| original_response := Samples.thinDocument;
               feedback := "make it formal";
               section_to_edit := all_sections |}.
Proof. repeat split; reflexivity. Qed.

(** ** Elapsed time *)

Lemma attemptStep_delay_bound (env : Env) (maxRetries attempt : nat) (t1 : Q)
    (guarded : Completion Response) (delay : Q) :
  (0 <= random env attempt)%Q -> (random env attempt < 1)%Q ->
  attemptStep env maxRetries attempt t1 guarded = Continue delay ->
  (Qmax 0 delay <= 11000)%Q.
Proof.
  intros H0 H1 Hstep.
  destruct (calculateRetryDelay_bounds attempt (random env attempt) H0 H1) as [Hlo Hhi].
  assert (Hcap : forall z, (inject_Z (Z.min z MAX_RETRY_DELAY_MS) <= 11000)%Q).
  { intros z. change 11000%Q with (inject_Z 11000). rewrite <- Zle_Qle.
    unfold MAX_RETRY_DELAY_MS. lia. }
  assert (Hparse : (parseRetryAfter (parseDate env) (Qfloor t1)
                      (match guarded with Ok r => retryAfterHeader r | Throw _ => None end)
                      (calculateRetryDelay attempt (random env attempt)) <= 11000)%Q).
  { unfold parseRetryAfter.
    destruct (match guarded with Ok r => retryAfterHeader r | Throw _ => None end)
      as [[| c h] |]; try exact Hhi.
    destruct (Js.parseInt10 (String c h)); [apply Hcap |].
    destruct (parseDate env (String c h)); [apply Hcap | exact Hhi]. }
  assert (Hd : (delay <= 11000)%Q).
  { unfold attemptStep in Hstep.
    destruct guarded as [response | e].
    - destruct ((500 <=? status response) && (attempt <? maxRetries)%nat).
      + injection Hstep as <-. exact Hhi.
      + destruct ((status response =? 429) && (attempt <? maxRetries)%nat).
        * injection Hstep as <-. exact Hparse.
        * discriminate Hstep.
    - destruct (isAbortError e); [discriminate Hstep |].
      destruct (isRetryableError e && (attempt <? maxRetries)%nat).
      + injection Hstep as <-. exact Hhi.
      + discriminate Hstep. }
  apply Q.max_lub; [discriminate | exact Hd].
Qed.

Lemma guardedAttempt_response (env : Env) (attempt : nat) (clock t1 : Q) (r : Response) :
  guardedAttempt env attempt clock = (t1, Ok r) ->
  settles (upstream env attempt) = Resolves r.
Proof.
  unfold guardedAttempt, fetchWithTimeout, awaitFetch.
  destruct (Qltb _ _).
  - destruct (settles (upstream env attempt)) as [r' | e]; cbn [guardSettle].
    + intros H. injection H as _ <-. reflexivity.
    + destruct (isAbortError e); [destruct (userSignalAborted _ _) |]; discriminate.
  - cbn [guardSettle]. change (isAbortError abortError) with true. cbv iota.
    destruct (userSignalAborted _ _); discriminate.
Qed.

(** What does bound an invocation: every attempt by the timeout, every wait
    by [MAX_RETRY_DELAY_MS] plus the jitter, and the reading of a body by
    nothing but the time [limit] the bodies happen to take. *)
Lemma retryLoop_elapsed (env : Env) (maxRetries : nat) (limit : Q) :
  (forall n, (0 <= random env n)%Q /\ (random env n < 1)%Q) ->
  (0 <= limit)%Q ->
  (forall n r, settles (upstream env n) = Resolves r -> (bodyTime r <= limit)%Q) ->
  forall fuel attempt clock lastError,
    (attempt + S fuel = S maxRetries)%nat ->
    (finishedAt (retryLoop env maxRetries (S fuel) attempt clock lastError)
     <= clock + inject_Z DEFAULT_TIMEOUT_MS * inject_Z (Z.of_nat (S fuel))
        + (11000 + limit) * inject_Z (Z.of_nat fuel))%Q.
Proof.
  intros Hrand Hlimit Hbody fuel.
  induction fuel as [| fuel IH]; intros attempt clock lastError Hsum;
    rewrite retryLoop_unfold;
    pose proof (guardedAttempt_within_timeout env attempt clock) as Ht;
    destruct (guardedAttempt env attempt clock) as [t1 guarded] eqn:Hg; cbn [fst] in Ht;
    destruct (attemptStep env maxRetries attempt (drained t1 guarded) guarded)
      as [delay | r | e] eqn:Hstep;
    cbn [finishedAt after];
    rewrite ?Nat2Z.inj_succ, <- ?Z.add_1_r, ?inject_Z_plus in *;
    change (inject_Z (Z.of_nat 0)) with 0%Q;
    change (inject_Z 1) with 1%Q;
    unfold DEFAULT_TIMEOUT_MS in *; change (inject_Z 30000) with 30000%Q in *;
    try (assert (0 <= inject_Z (Z.of_nat fuel))%Q
           by (change 0%Q with (inject_Z 0); rewrite <- Zle_Qle; lia));
    try nra.
  - (* the last iteration does not continue *)
    rewrite attemptStep_exhausted in Hstep by lia.
    destruct guarded; discriminate Hstep.
  - destruct (Hrand attempt) as [H0 H1].
    pose proof (attemptStep_delay_bound env maxRetries attempt (drained t1 guarded)
                  guarded delay H0 H1 Hstep) as Hd.
    assert (Hdr : (drained t1 guarded <= t1 + limit)%Q).
    { destruct guarded as [r | e]; cbn [drained].
      - pose proof (Hbody attempt r (guardedAttempt_response env attempt clock t1 r Hg)).
        lra.
      - lra. }
    specialize (IH (S attempt) (sleep (drained t1 guarded) delay)
                  (match guarded with Throw e => Some e | Ok _ => lastError end)
                  ltac:(lia)).
    rewrite ?Nat2Z.inj_succ, <- ?Z.add_1_r, ?inject_Z_plus in IH.
    change (inject_Z 1) with 1%Q in IH.
    unfold sleep in *. nra.
Qed.

(** C9, on the code.  [DEFAULT_TIMEOUT_MS] is the timeout of each attempt
    and nothing bounds the invocation as a whole: when three attempts are
    each answered 503 after fifteen seconds, the invocation makes its three
    attempts, waits one then two seconds, and ends 48 seconds after it
    started, beyond the thirty seconds of the budget. *)
Theorem outage_outlasts_budget :
  let run := analyzeTranscript Samples.slowOutage 0 in
  events run
  = [Attempted 0 0 15000; Slept 1000; Attempted 1 16000 31000; Slept 2000;
     Attempted 2 33000 48000]
  /\ attempts run = 3%nat
  /\ outcome run = Throw (ApiError "Upstream model unavailable" 503 None true)
  /\ finishedAt run = 48000%Q
  /\ (inject_Z DEFAULT_TIMEOUT_MS < finishedAt run - 0)%Q.
Proof. repeat split; reflexivity. Qed.

(** ** Supersession *)

(** C6, on the code.  The first [analyze] is answered 503 and waits one
    second for its retry; the second [analyze] starts meanwhile, at 500 ms,
    and aborts the first one's signal, which nothing observes during the
    wait.  The retry registers its listener on a signal that has already
    fired, so it is not aborted: the second invocation publishes at 800 ms,
    the superseded first one at 6100 ms, and the result that stays is the
    first one's. *)
Theorem superseded_analyze_publishes :
  let session := analyzeSession Samples.noDates [Samples.firstAnalyze; Samples.secondAnalyze] in
  let first := analyzeTranscript
                 (invocationEnv Samples.noDates Samples.firstAnalyze
                    (Some (startedAt Samples.secondAnalyze)))
                 (startedAt Samples.firstAnalyze) in
  events first = [Attempted 0 0 100; Slept 1000; Attempted 1 1100 6100]
  /\ outcome first = Ok (Samples.document "first")
  /\ publishers session = [1%nat; 0%nat]
  /\ result (sessionState initialState session) = Some (Samples.document "first").
Proof. repeat split; reflexivity. Qed.

(** * Further properties of the code *)

(** ** Shape of every run of [fetchWithRetry] *)

Lemma retryLoop_shape (env : Env) (maxRetries : nat) :
  forall fuel attempt clock lastError,
    (attempt + S fuel = S maxRetries)%nat ->
    let run := retryLoop env maxRetries (S fuel) attempt clock lastError in
    exists k started guarded,
      (k <= fuel)%nat
      /\ attempts run = S k
      /\ List.length (waits run) = k
      /\ last (events run) (Slept 0) = Attempted (attempt + k) started (finishedAt run)
      /\ guardedAttempt env (attempt + k) started = (finishedAt run, guarded)
      /\ outcome run = guarded
      /\ (retryableFailure guarded = true -> k = fuel).
Proof.
  intros fuel.
  induction fuel as [| fuel IH]; intros attempt clock lastError Hsum run;
    subst run; rewrite retryLoop_unfold;
    destruct (guardedAttempt env attempt clock) as [t1 guarded] eqn:Hg.
  - rewrite attemptStep_exhausted by lia.
    exists 0%nat, clock, guarded. rewrite Nat.add_0_r.
    destruct guarded; cbn; repeat split; try reflexivity; try assumption; lia.
  - destruct (attemptStep env maxRetries attempt (drained t1 guarded) guarded) as [delay | r | e] eqn:Hstep.
    + specialize (IH (S attempt) (sleep (drained t1 guarded) delay)
                    (match guarded with Throw e => Some e | Ok _ => lastError end)
                    ltac:(lia)).
      cbv zeta in IH.
      destruct IH as (k & started & g & Hk & Hn & Hw & Hlast & Hga & Hout & Hfull).
      exists (S k), started, g.
      replace (attempt + S k)%nat with (S attempt + k)%nat by lia.
      split; [lia |].
      split; [rewrite attempts_after_attempt_sleep, Hn; reflexivity |].
      split; [rewrite waits_after_attempt_sleep; cbn [List.length]; rewrite Hw; reflexivity |].
      split.
      { unfold after. cbn [events finishedAt].
        remember (events (retryLoop env maxRetries (S fuel) (S attempt) (sleep (drained t1 guarded) delay)
                            (match guarded with Throw e => Some e | Ok _ => lastError end)))
          as es eqn:Hes.
        destruct es as [| e0 es'].
        - exfalso. unfold attempts in Hn. rewrite <- Hes in Hn. discriminate Hn.
        - exact Hlast. }
      split; [exact Hga |]. split; [exact Hout |].
      intros Hr. rewrite (Hfull Hr). reflexivity.
    + exists 0%nat, clock, guarded. rewrite Nat.add_0_r.
      assert (Hnr : retryableFailure guarded = true -> 0%nat = S fuel).
      { intros Hr.
        destruct (attemptStep_retryable env maxRetries attempt (drained t1 guarded) guarded Hr ltac:(lia))
          as [d Hd]. congruence. }
      assert (Hgr : guarded = Ok r).
      { unfold attemptStep in Hstep. destruct guarded as [response | e].
        - destruct (_ && _); [discriminate |]. destruct (_ && _); [discriminate |].
          congruence.
        - destruct (isAbortError e); [discriminate |]. destruct (_ && _); discriminate. }
      cbn. repeat split; try reflexivity; try assumption; try lia.
      symmetry; exact Hgr.
    + exists 0%nat, clock, guarded. rewrite Nat.add_0_r.
      assert (Hnr : retryableFailure guarded = true -> 0%nat = S fuel).
      { intros Hr.
        destruct (attemptStep_retryable env maxRetries attempt (drained t1 guarded) guarded Hr ltac:(lia))
          as [d Hd]. congruence. }
      assert (Hgr : guarded = Throw e).
      { unfold attemptStep in Hstep. destruct guarded as [response | e'].
        - destruct (_ && _); [discriminate |]. destruct (_ && _); discriminate.
        - destruct (isAbortError e'); [congruence |]. destruct (_ && _); congruence. }
      cbn. repeat split; try reflexivity; try assumption; try lia.
      symmetry; exact Hgr.
Qed.

(** X1.  Every run of [fetchWithRetry] makes at least one and at most
    [maxRetries + 1] attempts, with one wait between consecutive attempts,
    and settles as its last attempt settled: with that attempt's response or
    with the error [fetchWithTimeout] threw for it.  The [throw lastError]
    after the loop is never reached.  A retryable failure comes out of the
    run only when the budget is used up. *)
Theorem fetchWithRetry_run_shape (env : Env) (maxRetries : nat) (clock : Q) :
  let run := fetchWithRetry env maxRetries clock in
  (1 <= attempts run <= S maxRetries)%nat
  /\ List.length (waits run) = (attempts run - 1)%nat
  /\ exists started guarded,
       last (events run) (Slept 0)
       = Attempted (attempts run - 1) started (finishedAt run)
       /\ guardedAttempt env (attempts run - 1) started = (finishedAt run, guarded)
       /\ outcome run = guarded
       /\ (retryableFailure guarded = true -> attempts run = S maxRetries).
Proof.
  intros run.
  destruct (retryLoop_shape env maxRetries maxRetries 0 clock None eq_refl)
    as (k & started & guarded & Hk & Hn & Hw & Hlast & Hg & Hout & Hfull).
  fold (fetchWithRetry env maxRetries clock) in Hn, Hw, Hlast, Hg, Hout.
  fold run in Hn, Hw, Hlast, Hg, Hout.
  cbn [Nat.add] in Hlast, Hg.
  rewrite Hn. replace (S k - 1)%nat with k by lia.
  split; [lia |]. split; [exact Hw |].
  exists started, guarded. repeat split; try assumption.
  intros Hr. rewrite (Hfull Hr). reflexivity.
Qed.

(** ** Outcomes that are final *)

(** X3.  An error thrown for an attempt that [isRetryableError] does not
    accept is rethrown by the loop at once, with retries left or not: so is
    a [TypeError] whose message does not contain the word fetch, however
    the network failed.  Thrown for the first attempt, it ends the
    invocation after one attempt and [analyze] publishes its message,
    unless it is an abort error. *)
Theorem unrecognised_error_not_retried (env : Env) (maxRetries fuel attempt : nat)
    (clock t1 : Q) (lastError : option JsError) (e : JsError) :
  guardedAttempt env attempt clock = (t1, Throw e) ->
  isRetryableError e = false ->
  retryLoop env maxRetries (S fuel) attempt clock lastError
  = {| outcome := Throw e; finishedAt := t1; events := [Attempted attempt clock t1] |}
  /\ (forall m, e = TypeError m -> Js.includes "fetch" m = false)
  /\ (attempt = 0%nat ->
      attempts (analyzeTranscript env clock) = 1%nat
      /\ outcome (analyzeTranscript env clock) = Throw e
      /\ publications (analyze env clock)
         = if isAbortError e then [] else [SetError (Some (formatErrorMessage e))]).
Proof.
  intros Hg Hr.
  assert (Hloop : forall m f a le,
            a = attempt ->
            retryLoop env m (S f) a clock le
            = {| outcome := Throw e; finishedAt := t1;
                 events := [Attempted attempt clock t1] |}).
  { intros m f a le ->. rewrite retryLoop_unfold, Hg. unfold attemptStep. rewrite Hr.
    destruct (isAbortError e); reflexivity. }
  split; [apply Hloop; reflexivity |].
  split; [intros m ->; exact Hr |].
  intros H0. subst attempt.
  assert (Hrun : fetchWithRetry env MAX_RETRIES clock
                 = {| outcome := Throw e; finishedAt := t1;
                      events := [Attempted 0 clock t1] |}).
  { unfold fetchWithRetry. apply Hloop. reflexivity. }
  assert (Hout : outcome (analyzeTranscript env clock) = Throw e).
  { rewrite analyzeTranscript_outcome, Hrun. reflexivity. }
  split.
  { unfold attempts, analyzeTranscript, andThen. cbn [events]. rewrite Hrun. reflexivity. }
  split; [exact Hout |].
  unfold analyze. rewrite Hout. unfold analyzeSettled.
  destruct (isAbortError e); reflexivity.
Qed.

Lemma unrecognised_error_not_retried_witness :
  attempts (analyzeTranscript Cases.loadFailed 0) = 1%nat
  /\ publications (analyze Cases.loadFailed 0) = [SetError (Some "Load failed")].
Proof.
  assert (Hg : guardedAttempt Cases.loadFailed 0 0
               = (100%Q, Throw (TypeError "Load failed"))) by reflexivity.
  destruct (unrecognised_error_not_retried _ 2 2 0 0 100 None _ Hg eq_refl)
    as (_ & _ & Hfirst).
  destruct (Hfirst eq_refl) as (Hn & _ & Hp).
  split; [exact Hn | exact Hp].
Defined.

(** ** How long an invocation lasts *)

(** X4.  No timer bounds an invocation as a whole, and none bounds the
    reading of a body.  With [Math.random()] in [0, 1) and bodies that are
    each read within [limit] milliseconds, a run of [fetchWithRetry] ends
    within [maxRetries + 1] timeouts and [maxRetries] waits of eleven
    seconds plus [limit] of its start, whatever the network and the
    caller's signal do and whatever [Retry-After] asks for; with the default
    budget, an [analyze] or [refine] request, which reads one more body,
    ends within 112 seconds plus three times [limit]. *)
Theorem invocation_elapsed_bound (env : Env) (maxRetries : nat) (clock limit : Q) :
  (forall n, (0 <= random env n)%Q /\ (random env n < 1)%Q) ->
  (0 <= limit)%Q ->
  (forall n r, settles (upstream env n) = Resolves r -> (bodyTime r <= limit)%Q) ->
  (finishedAt (fetchWithRetry env maxRetries clock) - clock
   <= inject_Z DEFAULT_TIMEOUT_MS * inject_Z (Z.of_nat (S maxRetries))
      + (11000 + limit) * inject_Z (Z.of_nat maxRetries))%Q
  /\ (finishedAt (analyzeTranscript env clock) - clock <= 112000 + 3 * limit)%Q
  /\ (finishedAt (refineWithFeedback env clock) - clock <= 112000 + 3 * limit)%Q.
Proof.
  intros Hrand Hlimit Hbody.
  pose proof (retryLoop_elapsed env maxRetries limit Hrand Hlimit Hbody
                maxRetries 0 clock None eq_refl) as H.
  pose proof (retryLoop_elapsed env MAX_RETRIES limit Hrand Hlimit Hbody
                2 0 clock None eq_refl) as H2.
  assert (Hlast : (finishedAt (analyzeTranscript env clock)
                   <= finishedAt (retryLoop env MAX_RETRIES 3 0 clock None) + limit)%Q).
  { unfold analyzeTranscript, andThen, fetchWithRetry. cbn [finishedAt].
    change (S MAX_RETRIES) with 3%nat.
    destruct (retryLoop_shape env MAX_RETRIES 2 0 clock None eq_refl)
      as (k & started & guarded & _ & _ & _ & _ & Hg & Hout & _).
    rewrite Hout.
    destruct guarded as [r | e]; cbn [drained].
    - pose proof (Hbody _ r (guardedAttempt_response _ _ _ _ r Hg)). lra.
    - lra. }
  change (finishedAt (refineWithFeedback env clock))
    with (finishedAt (analyzeTranscript env clock)).
  unfold fetchWithRetry.
  unfold DEFAULT_TIMEOUT_MS in *.
  change (inject_Z (Z.of_nat 3)) with 3%Q in H2.
  change (inject_Z (Z.of_nat 2)) with 2%Q in H2.
  change (inject_Z 30000) with 30000%Q in *.
  repeat split; lra.
Qed.

Lemma invocation_elapsed_bound_witness :
  (finishedAt (analyzeTranscript Samples.slowOutage 0) - 0 <= 112000 + 3 * 0)%Q.
Proof.
  assert (Hrand : forall n, (0 <= random Samples.slowOutage n)%Q
                            /\ (random Samples.slowOutage n < 1)%Q).
  { intros n. split; [vm_compute; discriminate | reflexivity]. }
  assert (Hlimit : (0 <= 0)%Q) by apply Qle_refl.
  assert (Hbody : forall n r, settles (upstream Samples.slowOutage n) = Resolves r ->
                              (bodyTime r <= 0)%Q).
  { intros n r H. injection H as <-. apply Qle_refl. }
  exact (proj1 (proj2 (invocation_elapsed_bound Samples.slowOutage 2 0 0
                         Hrand Hlimit Hbody))).
Defined.

(** ** A signal that fired before the attempt *)

(** X5.  When the caller's signal has already fired as an attempt starts,
    the attempt is not cut short by it: the listener registered on a fired
    signal never runs and [fetch] is given the attempt's own signal only.
    An upstream that answers within the timeout is awaited and its response
    returned as if nothing had been cancelled; one that does not is given up
    at the deadline, and the abort is then put down to the caller and
    rethrown as a cancellation instead of a [TimeoutError]. *)
Theorem fired_signal_is_not_observed (env : Env) (attempt : nat) (clock u : Q) :
  userAbort env = Some u ->
  (u <= clock)%Q ->
  (0 <= latency (upstream env attempt))%Q ->
  (latency (upstream env attempt) < inject_Z DEFAULT_TIMEOUT_MS ->
   forall r, settles (upstream env attempt) = Resolves r ->
     guardedAttempt env attempt clock
     = ((clock + latency (upstream env attempt))%Q, Ok r))%Q
  /\ (inject_Z DEFAULT_TIMEOUT_MS <= latency (upstream env attempt) ->
      guardedAttempt env attempt clock
      = ((clock + inject_Z DEFAULT_TIMEOUT_MS)%Q, Throw abortError))%Q.
Proof.
  intros Hu Hle Hlat.
  assert (Hstale : Qltb clock u = false) by (apply Qltb_false; exact Hle).
  unfold guardedAttempt, fetchWithTimeout, awaitFetch, controllerAbortsAt.
  rewrite Hu, Hstale.
  split.
  - intros Hlt r Hr.
    assert (Hq : Qltb (clock + latency (upstream env attempt))
                      (clock + inject_Z DEFAULT_TIMEOUT_MS) = true).
    { apply Qltb_true. lra. }
    rewrite Hq, Hr. reflexivity.
  - intros Hge.
    assert (Hq : Qltb (clock + latency (upstream env attempt))
                      (clock + inject_Z DEFAULT_TIMEOUT_MS) = false).
    { apply Qltb_false. lra. }
    rewrite Hq. cbn [guardSettle userSignalAborted].
    assert (Hab : Qle_bool u (clock + inject_Z DEFAULT_TIMEOUT_MS) = true).
    { apply Qle_bool_iff. unfold DEFAULT_TIMEOUT_MS.
      change (inject_Z 30000) with 30000%Q. lra. }
    rewrite Hab. reflexivity.
Qed.

Lemma fired_signal_is_not_observed_witness :
  guardedAttempt Cases.lateAnswer 0 2000
  = (7000%Q, Ok (Samples.success (Samples.document "late"))).
Proof.
  assert (Hle : (1000 <= 2000)%Q) by (vm_compute; discriminate).
  assert (Hlat : (0 <= 5000)%Q) by (vm_compute; discriminate).
  assert (Hlt : (5000 < inject_Z DEFAULT_TIMEOUT_MS)%Q) by reflexivity.
  exact (proj1 (fired_signal_is_not_observed Cases.lateAnswer 0 2000 1000
                  eq_refl Hle Hlat) Hlt _ eq_refl).
Defined.

(** ** More on the backoff policy *)

(** X6.  The exponential component doubles from one second and reaches the
    cap at the fourth retry: it is [1000 * 2^attempt] for the attempts 0 to
    3 and [MAX_RETRY_DELAY_MS] from attempt 4 on.  With the default budget
    only the attempts 0 and 1 are followed by a wait, so the cap never
    applies to the exponential delay. *)
Theorem cappedDelay_closed_form (attempt : nat) :
  cappedDelay attempt
  = (if (attempt <=? 3)%nat then 1000 * 2 ^ Z.of_nat attempt else MAX_RETRY_DELAY_MS)
  /\ ((attempt < MAX_RETRIES)%nat -> cappedDelay attempt = exponentialDelay attempt).
Proof.
  assert (H : cappedDelay attempt
              = if (attempt <=? 3)%nat then 1000 * 2 ^ Z.of_nat attempt
                else MAX_RETRY_DELAY_MS).
  { unfold cappedDelay, exponentialDelay, INITIAL_RETRY_DELAY_MS, MAX_RETRY_DELAY_MS.
    destruct (attempt <=? 3)%nat eqn:E.
    - apply Nat.leb_le in E.
      assert (Hp : 2 ^ Z.of_nat attempt <= 2 ^ 3) by (apply Z.pow_le_mono_r; lia).
      change (2 ^ 3) with 8 in Hp. lia.
    - apply Nat.leb_gt in E.
      assert (Hp : 2 ^ 4 <= 2 ^ Z.of_nat attempt) by (apply Z.pow_le_mono_r; lia).
      change (2 ^ 4) with 16 in Hp. lia. }
  split; [exact H |].
  intros Hlt. unfold MAX_RETRIES in Hlt. rewrite H.
  assert (E : (attempt <=? 3)%nat = true) by (apply Nat.leb_le; lia).
  rewrite E. reflexivity.
Qed.

Lemma readDigits_seen (s : string) (acc : Z) :
  0 <= acc -> exists v, Js.readDigits true acc s = Some v /\ 0 <= v.
Proof.
  revert acc. induction s as [| c s IH]; intros acc Hacc; cbn [Js.readDigits].
  - exists acc. split; [reflexivity | exact Hacc].
  - destruct (Js.isDigit c) eqn:Hd.
    + apply IH. unfold Js.isDigit in Hd. unfold Js.digitValue.
      apply andb_true_iff in Hd. destruct Hd as [Hd _]. apply Nat.leb_le in Hd. lia.
    + exists acc. split; [reflexivity | exact Hacc].
Qed.

Lemma parseInt10_digit (c : ascii) (h : string) :
  Js.isDigit c = true ->
  exists s, Js.parseInt10 (String c h) = Some s /\ 0 <= s.
Proof.
  intros Hd.
  assert (Hw : Js.isWhiteSpace c = false).
  { revert Hd. destruct c as [[] [] [] [] [] [] [] []]; vm_compute; congruence. }
  assert (Hv : 0 <= Js.digitValue c).
  { unfold Js.isDigit in Hd. unfold Js.digitValue.
    apply andb_true_iff in Hd. destruct Hd as [Hd _]. apply Nat.leb_le in Hd. lia. }
  destruct (readDigits_seen h (10 * 0 + Js.digitValue c) ltac:(lia)) as (v & Hr & Hv0).
  exists v. split; [| exact Hv0].
  unfold Js.parseInt10. cbn [Js.trimStart]. rewrite Hw.
  destruct c as [[] [] [] [] [] [] [] []];
    try (vm_compute in Hd; discriminate Hd);
    cbn [Js.readDigits]; rewrite Hd; exact Hr.
Qed.

(** X7.  A [Retry-After] value that starts with a digit is always taken for
    a count of seconds, whatever follows the digits, and date parsing is not
    consulted: a timestamp written with the year first is read as that many
    seconds.  The wait is then the count capped at [MAX_RETRY_DELAY_MS],
    never negative and independent of the exponential delay. *)
Theorem digit_hint_is_seconds (c : ascii) (h : string) :
  Js.isDigit c = true ->
  exists s,
    0 <= s
    /\ Js.parseInt10 (String c h) = Some s
    /\ forall dates now fallback,
         parseRetryAfter dates now (Some (String c h)) fallback
         = inject_Z (Z.min (s * 1000) MAX_RETRY_DELAY_MS)
         /\ (0 <= parseRetryAfter dates now (Some (String c h)) fallback
             <= inject_Z MAX_RETRY_DELAY_MS)%Q.
Proof.
  intros Hd. destruct (parseInt10_digit c h Hd) as (s & Hs & Hs0).
  exists s. split; [exact Hs0 |]. split; [exact Hs |].
  intros dates now fallback.
  assert (Heq : parseRetryAfter dates now (Some (String c h)) fallback
                = inject_Z (Z.min (s * 1000) MAX_RETRY_DELAY_MS)).
  { unfold parseRetryAfter. rewrite Hs. reflexivity. }
  split; [exact Heq |]. rewrite Heq.
  change 0%Q with (inject_Z 0). rewrite <- !Zle_Qle.
  unfold MAX_RETRY_DELAY_MS. lia.
Qed.

Lemma digit_hint_is_seconds_witness :
  parseRetryAfter (fun _ => Some 4102444800000) 0 (Some "2100-01-01T00:00:00Z") 1500
  = inject_Z 10000.
Proof.
  destruct (digit_hint_is_seconds "2" "100-01-01T00:00:00Z" eq_refl)
    as (s & _ & Hs & Hall).
  destruct (Hall (fun _ => Some 4102444800000) 0 1500%Q) as [Heq _].
  rewrite Heq. injection Hs as <-. reflexivity.
Defined.

(** X8.  Whatever the server sends in [Retry-After], the wait that
    [parseRetryAfter] returns is at most the larger of
    [MAX_RETRY_DELAY_MS] and the fallback: a hint never makes the client
    wait longer than ten seconds, and a count of ten seconds or more is cut
    to ten.  There is no lower bound: a date that is not in the future gives
    a wait of zero. *)
Theorem retry_after_is_capped (dates : string -> option Z) (now : Z)
    (hint : option string) (fallback : Q) :
  (parseRetryAfter dates now hint fallback <= Qmax (inject_Z MAX_RETRY_DELAY_MS) fallback)%Q
  /\ (forall seconds : N, (10 <= seconds)%N ->
      parseRetryAfter dates now (Some (numeral seconds)) fallback
      = inject_Z MAX_RETRY_DELAY_MS)
  /\ (forall h timestamp, h <> "" -> Js.parseInt10 h = None -> dates h = Some timestamp ->
      timestamp <= now ->
      parseRetryAfter dates now (Some h) fallback = inject_Z 0).
Proof.
  assert (Hcap : forall z, (inject_Z (Z.min z MAX_RETRY_DELAY_MS)
                            <= Qmax (inject_Z MAX_RETRY_DELAY_MS) fallback)%Q).
  { intros z. eapply Qle_trans; [| apply Q.le_max_l].
    rewrite <- Zle_Qle. apply Z.le_min_r. }
  split.
  { unfold parseRetryAfter.
    destruct hint as [[| c h] |]; try apply Q.le_max_r.
    destruct (Js.parseInt10 (String c h)); [apply Hcap |].
    destruct (dates (String c h)); [apply Hcap | apply Q.le_max_r]. }
  split.
  { intros seconds Hs. unfold parseRetryAfter.
    pose proof (numeral_nonempty seconds) as Hne.
    pose proof (parseInt10_numeral seconds) as Hp.
    destruct (numeral seconds) as [| c h]; [congruence |].
    rewrite Hp. f_equal. unfold MAX_RETRY_DELAY_MS. lia. }
  intros h timestamp Hne Hp Hd Hpast. unfold parseRetryAfter.
  destruct h as [| c h]; [congruence |].
  rewrite Hp, Hd. f_equal. unfold MAX_RETRY_DELAY_MS. lia.
Qed.

Lemma retry_after_is_capped_witness :
  parseRetryAfter Samples.noDates 0 (Some (numeral 60)) 1500 = inject_Z MAX_RETRY_DELAY_MS.
Proof.
  assert (H : (10 <= 60)%N) by (vm_compute; discriminate).
  exact (proj1 (proj2 (retry_after_is_capped Samples.noDates 0 (Some (numeral 60)) 1500))
               60%N H).
Defined.

Lemma cappedDelay_closed_form_witness : cappedDelay 1 = exponentialDelay 1.
Proof.
  assert (H : (1 < MAX_RETRIES)%nat) by (unfold MAX_RETRIES; lia).
  exact (proj2 (cappedDelay_closed_form 1) H).
Defined.

Lemma fetchWithRetry_run_shape_witness :
  (1 <= attempts (fetchWithRetry Samples.rejected 2 0) <= 3)%nat.
Proof.
  exact (proj1 (fetchWithRetry_run_shape Samples.rejected 2 0)).
Defined.

(** ** What an operation leaves in the state of the hook *)

(** X9.  Whatever the network does, a call of [analyze] ends with [loading]
    false, never touches [refining] and publishes at most once.  If the
    request resolves, the document becomes the result and no error is left;
    if it fails, the result that was there stays and the formatted message
    becomes the error; if it is cancelled, the result stays too and the
    error is the [null] set when the call began, so an error shown before
    the call is gone.  A call of [refine] that has a result behaves in the
    same way on [refining], and leaves [loading] alone. *)
Theorem operation_leaves_state (env : Env) (clock : Q) (st : HookState) :
  let a := applySetters st (analyze env clock) in
  loading a = false /\ refining a = refining st
  /\ (List.length (publications (analyze env clock)) <= 1)%nat
  /\ match outcome (analyzeTranscript env clock) with
     | Ok doc => result a = Some doc /\ error a = None
     | Throw e =>
         result a = result st
         /\ error a = if isAbortError e then None else Some (formatErrorMessage e)
     end
  /\ forall held feedback section,
       let calls := snd (refine env clock (Some held) feedback section) in
       let r := applySetters st calls in
       refining r = false /\ loading r = loading st
       /\ (List.length (publications calls) <= 1)%nat
       /\ match outcome (refineWithFeedback env clock) with
          | Ok doc => result r = Some doc /\ error r = None
          | Throw e =>
              result r = result st
              /\ error r = if isAbortError e then None else Some (formatErrorMessage e)
          end.
Proof.
  cbv zeta. unfold analyze, refine. cbn [snd].
  unfold analyzeSettled, refineSettled.
  split; [| split; [| split; [| split]]].
  - destruct (outcome (analyzeTranscript env clock)) as [doc | e];
      [| destruct (isAbortError e)]; reflexivity.
  - destruct (outcome (analyzeTranscript env clock)) as [doc | e];
      [| destruct (isAbortError e)]; reflexivity.
  - destruct (outcome (analyzeTranscript env clock)) as [doc | e];
      [| destruct (isAbortError e)]; cbn; lia.
  - destruct (outcome (analyzeTranscript env clock)) as [doc | e];
      [| destruct (isAbortError e)]; split; reflexivity.
  - intros held feedback section.
    destruct (outcome (refineWithFeedback env clock)) as [doc | e];
      [| destruct (isAbortError e)]; cbn; repeat split; lia.
Qed.

(** ** The controllers of the hook *)

Lemma abortAt_length (id : nat) (l : list Controller) :
  List.length (abortAt id l) = List.length l.
Proof.
  revert id. induction l as [| c l IH]; intros [| id]; cbn; try reflexivity.
  rewrite IH. reflexivity.
Qed.

Lemma nth_error_abortAt_other (id id' : nat) (l : list Controller) :
  id' <> id -> nth_error (abortAt id l) id' = nth_error l id'.
Proof.
  revert id id'. induction l as [| c l IH]; intros [| id] [| id'] Hne; cbn;
    try reflexivity; try congruence.
  apply IH. congruence.
Qed.

Lemma nth_error_abortAt_same (id : nat) (l : list Controller) (c : Controller) :
  nth_error (abortAt id l) id = Some c -> isAborted c = true.
Proof.
  revert id. induction l as [| c0 l IH]; intros [| id]; cbn; try discriminate.
  - intros H. injection H as <-. reflexivity.
  - apply IH.
Qed.

Lemma nth_error_abortAt_live (id id' : nat) (l : list Controller) (c : Controller) :
  nth_error (abortAt id l) id' = Some c -> isAborted c = false ->
  id' <> id /\ nth_error l id' = Some c.
Proof.
  intros Hn Hlive.
  destruct (Nat.eq_dec id' id) as [-> | Hne].
  - apply nth_error_abortAt_same in Hn. congruence.
  - split; [exact Hne |]. rewrite nth_error_abortAt_other in Hn by exact Hne. exact Hn.
Qed.

Lemma abortRef_length (ref : option nat) (l : list Controller) :
  List.length (abortRef ref l) = List.length l.
Proof. destruct ref; [apply abortAt_length | reflexivity]. Qed.

Lemma abortRef_live (ref : option nat) (l : list Controller) (id : nat) (c : Controller) :
  nth_error (abortRef ref l) id = Some c -> isAborted c = false ->
  ref <> Some id /\ nth_error l id = Some c.
Proof.
  destruct ref as [a |]; cbn [abortRef]; intros Hn Hlive.
  - destruct (nth_error_abortAt_live a id l c Hn Hlive) as [Hne Hl].
    split; [congruence | exact Hl].
  - split; [discriminate | exact Hn].
Qed.

Lemma abortRef_other (ref : option nat) (l : list Controller) (id : nat) :
  ref <> Some id -> nth_error (abortRef ref l) id = nth_error l id.
Proof.
  destruct ref as [a |]; cbn [abortRef]; intros Hne; [| reflexivity].
  apply nth_error_abortAt_other. congruence.
Qed.

Lemma liveIsHeld_begin (k : Kind) (s : Refs) :
  liveIsHeld s ->
  liveIsHeld (match k with AnalyzeOp => beginAnalyze s | RefineOp => beginRefine s end).
Proof.
  intros [Hheld Hlive].
  assert (Hdistinct : forall k1 k2 id, k1 <> k2 -> refOf k1 s = Some id ->
                                       refOf k2 s <> Some id).
  { intros k1 k2 id Hk H1 H2.
    pose proof (Hheld k1 id H1) as E1. pose proof (Hheld k2 id H2) as E2.
    rewrite E1 in E2. congruence. }
  assert (Hother : forall k' id, k' <> k -> refOf k' s = Some id ->
            nth_error (abortRef (refOf k s) (controllers s) ++
                       [{| madeBy := k; isAborted := false |}]) id
            = Some {| madeBy := k'; isAborted := false |}).
  { intros k' id Hk Href.
    pose proof (Hheld k' id Href) as E.
    assert (Hlt : (id < List.length (controllers s))%nat)
      by (apply nth_error_Some; congruence).
    rewrite nth_error_app1 by (rewrite abortRef_length; exact Hlt).
    rewrite abortRef_other by (apply (Hdistinct k' k id Hk Href)).
    exact E. }
  assert (Hnew : forall id c,
            nth_error (abortRef (refOf k s) (controllers s) ++
                       [{| madeBy := k; isAborted := false |}]) id = Some c ->
            isAborted c = false ->
            (id = List.length (abortRef (refOf k s) (controllers s)) /\ madeBy c = k)
            \/ (madeBy c <> k /\ refOf (madeBy c) s = Some id)).
  { intros id c Hn Hl.
    destruct (Nat.lt_ge_cases id (List.length (abortRef (refOf k s) (controllers s))))
      as [Hlt | Hge].
    - right. rewrite nth_error_app1 in Hn by exact Hlt.
      destruct (abortRef_live _ _ _ _ Hn Hl) as [Hne Hc].
      pose proof (Hlive id c Hc Hl) as Href.
      split; [| exact Href]. intros Hk. rewrite Hk in Href. congruence.
    - left. rewrite nth_error_app2 in Hn by exact Hge.
      destruct (id - List.length (abortRef (refOf k s) (controllers s)))%nat
        as [| d] eqn:Hd; cbn in Hn.
      + injection Hn as <-. split; [lia | reflexivity].
      + destruct d; discriminate Hn. }
  destruct k; unfold beginAnalyze, beginRefine; cbn [refOf] in *; split.
  - intros [|] id Href; cbn [refOf controllers analyzeAbortRef refineAbortRef] in *.
    + injection Href as <-. rewrite nth_error_app2 by lia.
      rewrite Nat.sub_diag. reflexivity.
    + apply (Hother RefineOp id); [discriminate | exact Href].
  - intros id c Hn Hl. cbn [controllers] in Hn.
    destruct (Hnew id c Hn Hl) as [[-> Hk] | [Hk Href]].
    + rewrite Hk. reflexivity.
    + destruct (madeBy c); [congruence | exact Href].
  - intros [|] id Href; cbn [refOf controllers analyzeAbortRef refineAbortRef] in *.
    + apply (Hother AnalyzeOp id); [discriminate | exact Href].
    + injection Href as <-. rewrite nth_error_app2 by lia.
      rewrite Nat.sub_diag. reflexivity.
  - intros id c Hn Hl. cbn [controllers] in Hn.
    destruct (Hnew id c Hn Hl) as [[-> Hk] | [Hk Href]].
    + rewrite Hk. reflexivity.
    + destruct (madeBy c); [exact Href | congruence].
Qed.

Lemma cancelRequests_all_aborted (s : Refs) :
  liveIsHeld s ->
  forall id c, nth_error (controllers (cancelRequests s)) id = Some c -> isAborted c = true.
Proof.
  intros [Hheld Hlive] id c Hn.
  destruct (isAborted c) eqn:Hl; [reflexivity | exfalso].
  unfold cancelRequests in Hn. cbn [controllers] in Hn.
  destruct (abortRef_live _ _ _ _ Hn Hl) as [Hr Hn1].
  destruct (abortRef_live _ _ _ _ Hn1 Hl) as [Ha Hn2].
  pose proof (Hlive id c Hn2 Hl) as Href.
  destruct (madeBy c); cbn [refOf] in Href; congruence.
Qed.

Lemma liveIsHeld_cancelRequests (s : Refs) : liveIsHeld s -> liveIsHeld (cancelRequests s).
Proof.
  intros Hinv. split.
  - intros [|] id Href; discriminate Href.
  - intros id c Hn Hl.
    rewrite (cancelRequests_all_aborted s Hinv id c Hn) in Hl. discriminate Hl.
Qed.

Lemma liveIsHeld_calls (calls : list HookCall) (s : Refs) :
  liveIsHeld s -> liveIsHeld (fold_left hookCall calls s).
Proof.
  revert s. induction calls as [| c calls IH]; intros s Hinv; cbn [fold_left].
  - exact Hinv.
  - apply IH. destruct c; cbn [hookCall].
    + apply (liveIsHeld_begin AnalyzeOp s Hinv).
    + apply (liveIsHeld_begin RefineOp s Hinv).
    + apply liveIsHeld_cancelRequests. exact Hinv.
Qed.

(** X10.  After any sequence of calls of [analyze], calls of [refine] and
    unmounts, the controllers that are not aborted are exactly those the two
    references hold: each reference holds a live controller made by its own
    operation, every other controller has been aborted, and so at most one
    controller per operation is live.  Starting one operation leaves the
    controller of the other alone.  After [cancelRequests] both references
    are empty and no controller is live. *)
Theorem single_flight (calls : list HookCall) :
  let s := afterCalls calls in
  liveIsHeld s
  /\ (forall id1 id2 c1 c2,
        nth_error (controllers s) id1 = Some c1 -> isAborted c1 = false ->
        nth_error (controllers s) id2 = Some c2 -> isAborted c2 = false ->
        madeBy c1 = madeBy c2 -> id1 = id2)
  /\ (forall id, refineAbortRef s = Some id ->
        refineAbortRef (beginAnalyze s) = Some id
        /\ nth_error (controllers (beginAnalyze s)) id
           = Some {| madeBy := RefineOp; isAborted := false |})
  /\ (forall id, analyzeAbortRef s = Some id ->
        analyzeAbortRef (beginRefine s) = Some id
        /\ nth_error (controllers (beginRefine s)) id
           = Some {| madeBy := AnalyzeOp; isAborted := false |})
  /\ analyzeAbortRef (cancelRequests s) = None
  /\ refineAbortRef (cancelRequests s) = None
  /\ (forall id c, nth_error (controllers (cancelRequests s)) id = Some c ->
        isAborted c = true).
Proof.
  intros s.
  assert (Hinv : liveIsHeld s).
  { apply liveIsHeld_calls. split.
    - intros [|] id H; discriminate H.
    - intros [| id] c H; discriminate H. }
  split; [exact Hinv |].
  split.
  { intros id1 id2 c1 c2 H1 L1 H2 L2 Hk.
    destruct Hinv as [_ Hlive].
    pose proof (Hlive id1 c1 H1 L1) as R1. pose proof (Hlive id2 c2 H2 L2) as R2.
    rewrite Hk in R1. congruence. }
  split.
  { intros id Href. split; [exact Href |].
    destruct (liveIsHeld_begin AnalyzeOp s Hinv) as [Hheld _].
    apply (Hheld RefineOp id). exact Href. }
  split.
  { intros id Href. split; [exact Href |].
    destruct (liveIsHeld_begin RefineOp s Hinv) as [Hheld _].
    apply (Hheld AnalyzeOp id). exact Href. }
  split; [reflexivity |]. split; [reflexivity |].
  apply cancelRequests_all_aborted. exact Hinv.
Qed.

Lemma single_flight_witness :
  analyzeAbortRef (cancelRequests (afterCalls [CallAnalyze; CallRefine; CallAnalyze])) = None
  /\ option_map isAborted
       (nth_error (controllers (cancelRequests (afterCalls [CallAnalyze; CallRefine; CallAnalyze])))
                  2)
     = Some true.
Proof.
  destruct (single_flight [CallAnalyze; CallRefine; CallAnalyze])
    as (_ & _ & _ & _ & Hnone & _ & Hall).
  split; [exact Hnone |].
  cbv zeta in Hall.
  destruct (nth_error (controllers (cancelRequests
                                      (afterCalls [CallAnalyze; CallRefine; CallAnalyze]))) 2)
    as [c |] eqn:E.
  - cbn [option_map]. rewrite (Hall 2%nat c E). reflexivity.
  - vm_compute in E. discriminate E.
Defined.

(** ** Supersession while the request is in flight *)

(** A signal that fires while the attempt is in flight, before its deadline,
    aborts the attempt at that instant. *)
Lemma guardedAttempt_aborted_in_flight (env : Env) (attempt : nat) (clock u : Q) :
  userAbort env = Some u ->
  (clock < u)%Q ->
  (u <= clock + latency (upstream env attempt))%Q ->
  (u <= clock + inject_Z DEFAULT_TIMEOUT_MS)%Q ->
  guardedAttempt env attempt clock = (u, Throw abortError).
Proof.
  intros Hu Hlt Hlat Hdead.
  unfold guardedAttempt, fetchWithTimeout, awaitFetch, controllerAbortsAt.
  rewrite Hu.
  assert (Hlive : Qltb clock u = true) by (apply Qltb_true; exact Hlt).
  rewrite Hlive.
  assert (Hmin : Qmin u (clock + inject_Z DEFAULT_TIMEOUT_MS) = u).
  { unfold Qmin, GenericMinMax.gmin.
    destruct (u ?= clock + inject_Z DEFAULT_TIMEOUT_MS)%Q eqn:E; try reflexivity.
    exfalso. rewrite <- Qgt_alt in E. apply (Qlt_not_le _ _ E). exact Hdead. }
  rewrite Hmin.
  assert (Hq : Qltb (clock + latency (upstream env attempt)) u = false)
    by (apply Qltb_false; exact Hlat).
  rewrite Hq. cbn [guardSettle userSignalAborted].
  assert (Hab : Qle_bool u u = true) by (apply Qle_bool_iff; apply Qle_refl).
  rewrite Hab. reflexivity.
Qed.

(** Every attempt that a run records settled as its guarded fetch did, and
    an attempt that ends in an abort error is the last of its run, which
    rejects with that error. *)
Lemma retryLoop_attempt_inv (env : Env) (maxRetries : nat) :
  forall fuel attempt clock lastError n started finished,
    let run := retryLoop env maxRetries fuel attempt clock lastError in
    In (Attempted n started finished) (events run) ->
    finished = fst (guardedAttempt env n started)
    /\ forall e, snd (guardedAttempt env n started) = Throw e ->
                 isAbortError e = true ->
                 outcome run = Throw e
                 /\ finishedAt run = finished
                 /\ last (events run) (Slept 0) = Attempted n started finished.
Proof.
  intros fuel.
  induction fuel as [| fuel IH]; intros attempt clock lastError n started finished run Hin;
    [destruct Hin |].
  subst run. rewrite retryLoop_unfold in Hin |- *.
  destruct (guardedAttempt env attempt clock) as [t1 guarded] eqn:Hg.
  assert (Hhead : Attempted attempt clock t1 = Attempted n started finished ->
                  finished = fst (guardedAttempt env n started)
                  /\ forall e, snd (guardedAttempt env n started) = Throw e ->
                               isAbortError e = true ->
                               attemptStep env maxRetries attempt (drained t1 guarded) guarded
                               = Raise e).
  { intros Heq. injection Heq as <- <- <-. rewrite Hg. split; [reflexivity |].
    cbn [snd]. intros e -> He. unfold attemptStep. rewrite He. reflexivity. }
  destruct (attemptStep env maxRetries attempt (drained t1 guarded) guarded)
    as [delay | response | error] eqn:Hstep.
  - cbn [events after] in Hin. destruct Hin as [Heq | [Heq | Hin]].
    + destruct (Hhead Heq) as [Hf Hraise]. split; [exact Hf |].
      intros e Hs He. discriminate (Hraise e Hs He).
    + discriminate Heq.
    + destruct (IH _ _ _ _ _ _ Hin) as [Hf Hrest]. split; [exact Hf |].
      intros e Hs He. destruct (Hrest e Hs He) as (Ho & Hfin & Hlast).
      cbn [outcome finishedAt events after].
      split; [exact Ho |]. split; [exact Hfin |].
      destruct (events (retryLoop env maxRetries fuel (S attempt)
                          (sleep (drained t1 guarded) delay)
                          match guarded with
                          | Ok _ => lastError
                          | Throw e0 => Some e0
                          end)) as [| e0 es]; [destruct Hin | exact Hlast].
  - cbn [events] in Hin. destruct Hin as [Heq | []].
    destruct (Hhead Heq) as [Hf Hraise]. split; [exact Hf |].
    intros e Hs He. discriminate (Hraise e Hs He).
  - cbn [events] in Hin. destruct Hin as [Heq | []].
    destruct (Hhead Heq) as [Hf Hraise]. split; [exact Hf |].
    intros e Hs He. pose proof (Hraise e Hs He) as Hr. injection Hr as ->.
    injection Heq as <- <- <-. cbn [outcome finishedAt events last].
    repeat split.
Qed.

(** C5, on the code.  The caller's signal fires at 500 ms, while the
    invocation waits for its retry after a 503.  [sleep] does not observe
    the signal, and the listener that the retry registers on it never runs,
    as the signal has fired already: the retry is made with the signal
    fired, is not abandoned, and its answer is published. *)
Theorem cancellation_in_backoff_is_retried :
  let env := Cases.cancelledInBackoff in
  let run := analyzeTranscript env 0 in
  events run = [Attempted 0 0 100; Slept 1000; Attempted 1 1100 6100]
  /\ userSignalAborted (userAbort env) 1100 = true
  /\ abandoned DEFAULT_TIMEOUT_MS 1100 (userAbort env) (upstream env 1) = false
  /\ outcome run = Ok (Samples.document "first")
  /\ publications (analyze env 0) = [SetResult (Samples.document "first")].
Proof. repeat split. Qed.

(** X17.  Where the cancellation of the caller works: when the caller's
    signal fires while an attempt of the invocation, whichever it is, is in
    flight, strictly before the answer and strictly before the deadline of
    that attempt, the attempt ends at that instant in the abort error, no
    wait and no attempt follow it, the request rejects with the abort error
    and [analyze] publishes neither a document nor an error message. *)
Theorem cancellation_in_flight_is_final (env : Env) (clock : Q) (n : nat)
    (started finished u : Q) :
  let run := analyzeTranscript env clock in
  In (Attempted n started finished) (events run) ->
  userAbort env = Some u ->
  (started < u)%Q ->
  (u < started + latency (upstream env n))%Q ->
  (u < started + inject_Z DEFAULT_TIMEOUT_MS)%Q ->
  guardedAttempt env n started = (u, Throw abortError)
  /\ finished = u
  /\ last (events run) (Slept 0) = Attempted n started u
  /\ outcome run = Throw abortError
  /\ publications (analyze env clock) = []
  /\ forall st, result (applySetters st (analyze env clock)) = result st
                /\ error (applySetters st (analyze env clock)) = None.
Proof.
  intros run Hin Hu Hlt Hlat Hdead.
  pose proof (guardedAttempt_aborted_in_flight env n started u Hu Hlt
                (Qlt_le_weak _ _ Hlat) (Qlt_le_weak _ _ Hdead)) as Hg.
  unfold run, analyzeTranscript, andThen, fetchWithRetry in Hin. cbn [events] in Hin.
  destruct (retryLoop_attempt_inv env MAX_RETRIES _ _ _ _ _ _ _ Hin) as [Hf Hrest].
  rewrite Hg in Hf, Hrest. cbn [fst snd] in Hf, Hrest.
  destruct (Hrest abortError eq_refl eq_refl) as (Ho & _ & Hlast).
  assert (Hout : outcome run = Throw abortError).
  { unfold run. rewrite analyzeTranscript_outcome. unfold fetchWithRetry.
    rewrite Ho. reflexivity. }
  split; [exact Hg |]. split; [exact Hf |].
  split.
  { unfold run, analyzeTranscript, andThen, fetchWithRetry. cbn [events].
    rewrite Hlast, Hf. reflexivity. }
  split; [exact Hout |].
  unfold analyze. fold run. rewrite Hout.
  destruct (settled_cancelled abortError initialState eq_refl) as (Hp & _).
  split; [exact Hp |].
  intros st. destruct (settled_cancelled abortError st eq_refl) as (_ & _ & Hr & He & _).
  split; assumption.
Qed.

Lemma cancellation_in_flight_is_final_witness :
  guardedAttempt Cases.cancelledInRetry 1 1100 = (2000%Q, Throw abortError)
  /\ outcome (analyzeTranscript Cases.cancelledInRetry 0) = Throw abortError
  /\ publications (analyze Cases.cancelledInRetry 0) = [].
Proof.
  assert (Hin : In (Attempted 1 1100 2000)
                   (events (analyzeTranscript Cases.cancelledInRetry 0)))
    by (right; right; left; reflexivity).
  assert (Hlt : (1100 < 2000)%Q) by reflexivity.
  assert (Hlat : (2000 < 1100 + latency (upstream Cases.cancelledInRetry 1))%Q)
    by reflexivity.
  assert (Hdead : (2000 < 1100 + inject_Z DEFAULT_TIMEOUT_MS)%Q) by reflexivity.
  destruct (cancellation_in_flight_is_final Cases.cancelledInRetry 0 1 1100 2000 2000
              Hin eq_refl Hlt Hlat Hdead) as (Hg & _ & _ & Hout & Hpub & _).
  repeat split; assumption.
Defined.

(** X19.  An attempt whose answer would come strictly after its deadline,
    with a caller's signal that never fires or fires strictly after that
    deadline, ends at the deadline in a [TimeoutError] that names the
    timeout.  That error is no abort error, and the loop retries it after
    the backoff delay while retries are left and rethrows it otherwise. *)
Theorem deadline_is_a_timeout (env : Env) (maxRetries attempt : nat) (clock : Q) :
  let deadline := (clock + inject_Z DEFAULT_TIMEOUT_MS)%Q in
  let timeout := TimeoutError (timeoutMessage DEFAULT_TIMEOUT_MS) in
  (deadline < clock + latency (upstream env attempt))%Q ->
  (forall u, userAbort env = Some u -> (deadline < u)%Q) ->
  guardedAttempt env attempt clock = (deadline, Throw timeout)
  /\ timeoutMessage DEFAULT_TIMEOUT_MS = "Request timed out after 30000ms"
  /\ isAbortError timeout = false
  /\ forall t1,
       attemptStep env maxRetries attempt t1 (Throw timeout)
       = if (attempt <? maxRetries)%nat
         then Continue (calculateRetryDelay attempt (random env attempt))
         else Raise timeout.
Proof.
  intros deadline timeout Hlat Hsig.
  split.
  { unfold guardedAttempt, fetchWithTimeout, awaitFetch, controllerAbortsAt.
    fold deadline.
    destruct (userAbort env) as [u |] eqn:Hu.
    - pose proof (Hsig u eq_refl) as Hlate.
      assert (Hmin : Qmin u deadline = deadline).
      { unfold Qmin, GenericMinMax.gmin.
        destruct (u ?= deadline)%Q eqn:E; try reflexivity.
        - apply Qeq_alt in E. exfalso. rewrite E in Hlate. apply (Qlt_irrefl _ Hlate).
        - apply Qlt_alt in E. exfalso. apply (Qlt_irrefl u).
          eapply Qlt_trans; eassumption. }
      assert (Hab : (if Qltb clock u then Qmin u deadline else deadline) = deadline)
        by (destruct (Qltb clock u); [exact Hmin | reflexivity]).
      rewrite Hab.
      assert (Hq : Qltb (clock + latency (upstream env attempt)) deadline = false)
        by (apply Qltb_false; apply Qlt_le_weak; exact Hlat).
      rewrite Hq. cbn [guardSettle userSignalAborted].
      change (isAbortError abortError) with true. cbv iota.
      assert (Hno : Qle_bool u deadline = false).
      { destruct (Qle_bool u deadline) eqn:E; [| reflexivity].
        apply Qle_bool_iff in E. exfalso. apply (Qlt_not_le _ _ Hlate). exact E. }
      rewrite Hno. reflexivity.
    - assert (Hq : Qltb (clock + latency (upstream env attempt)) deadline = false)
        by (apply Qltb_false; apply Qlt_le_weak; exact Hlat).
      rewrite Hq. reflexivity. }
  split; [reflexivity |]. split; [reflexivity |].
  intros t1. unfold attemptStep. reflexivity.
Qed.

Lemma deadline_is_a_timeout_witness :
  guardedAttempt (Samples.steady (Samples.answers 40000 Samples.unavailable) None) 0 0
  = (30000%Q, Throw (TimeoutError "Request timed out after 30000ms")).
Proof.
  assert (Hlat : (0 + inject_Z DEFAULT_TIMEOUT_MS
                  < 0 + latency (upstream (Samples.steady
                                   (Samples.answers 40000 Samples.unavailable) None) 0))%Q)
    by reflexivity.
  assert (Hsig : forall u,
             userAbort (Samples.steady (Samples.answers 40000 Samples.unavailable) None)
             = Some u -> (0 + inject_Z DEFAULT_TIMEOUT_MS < u)%Q)
    by (intros u H; discriminate H).
  destruct (deadline_is_a_timeout
              (Samples.steady (Samples.answers 40000 Samples.unavailable) None) 2 0 0
              Hlat Hsig) as (Hg & _).
  exact Hg.
Defined.

Lemma In_insertBatch (x b : Batch) (l : list Batch) :
  In x (insertBatch b l) -> x = b \/ In x l.
Proof.
  induction l as [| b' l IH]; cbn [insertBatch].
  - intros [<- | []]. left; reflexivity.
  - destruct (precedes b b').
    + intros [<- | H]; [left; reflexivity | right; exact H].
    + intros [<- | H]; [right; left; reflexivity |].
      destruct (IH H) as [-> | H']; [left; reflexivity | right; right; exact H'].
Qed.

Lemma In_chronological (x : Batch) (l : list Batch) :
  In x (chronological l) -> In x l.
Proof.
  induction l as [| b l IH]; cbn; [tauto |].
  intros H. destruct (In_insertBatch _ _ _ H) as [-> | H']; [left; reflexivity |].
  right. apply IH. exact H'.
Qed.

Lemma publishers_In (i : nat) (bs : list Batch) :
  In i (publishers (flat_map (fun b => map (fun s => (who b, s)) (calls b)) bs)) ->
  exists b s, In b bs /\ who b = i /\ In s (calls b) /\ publishes s = true.
Proof.
  unfold publishers. intros H.
  apply in_map_iff in H. destruct H as ([w s] & Hw & Hin). cbn [fst] in Hw. subst w.
  apply filter_In in Hin. destruct Hin as [Hin Hp]. cbn [snd] in Hp.
  apply in_flat_map in Hin. destruct Hin as (b & Hb & Hs).
  apply in_map_iff in Hs. destruct Hs as (s' & Heq & Hs').
  injection Heq as Hwho ->.
  exists b, s. repeat split; assumption.
Qed.

Lemma analyzeBatches_In (dates : string -> option Z) (b : Batch) :
  forall invs k,
    In b (analyzeBatches dates k invs) ->
    exists j inv,
      nth_error invs j = Some inv /\ who b = (k + j)%nat
      /\ (calls b = analyzeStart
          \/ calls b
             = analyzeSettled
                 (outcome (analyzeTranscript
                             (invocationEnv dates inv
                                (option_map startedAt (nth_error invs (S j))))
                             (startedAt inv)))).
Proof.
  induction invs as [| inv rest IH]; intros k Hin; cbn [analyzeBatches] in Hin.
  - destruct Hin.
  - destruct Hin as [<- | [<- | Hin]].
    + exists 0%nat, inv. cbn. repeat split; [lia | left; reflexivity].
    + exists 0%nat, inv. cbn [nth_error who calls]. repeat split; [lia |].
      right. destruct rest; reflexivity.
    + destruct (IH (S k) Hin) as (j & inv' & Hn & Hw & Hc).
      exists (S j), inv'. cbn [nth_error]. repeat split; [exact Hn | lia | exact Hc].
Qed.

(** X11.  Where supersession works: when the next [analyze] starts while the
    first attempt of an invocation is in flight (after that invocation
    started, before its request is answered and before its deadline), the
    invocation is aborted at that instant and, in the session, it never
    publishes a document or an error. *)
Theorem superseded_in_flight_never_publishes (dates : string -> option Z)
    (invs : list Invocation) (i : nat) (inv next : Invocation) :
  nth_error invs i = Some inv ->
  nth_error invs (S i) = Some next ->
  (startedAt inv < startedAt next)%Q ->
  (startedAt next <= startedAt inv + latency (network inv 0))%Q ->
  (startedAt next <= startedAt inv + inject_Z DEFAULT_TIMEOUT_MS)%Q ->
  let run := analyzeTranscript (invocationEnv dates inv (Some (startedAt next)))
                               (startedAt inv) in
  outcome run = Throw abortError
  /\ finishedAt run = startedAt next
  /\ attempts run = 1%nat
  /\ ~ In i (publishers (analyzeSession dates invs)).
Proof.
  intros Hi Hnext Hlt Hlat Hdead run.
  pose proof (guardedAttempt_aborted_in_flight
                (invocationEnv dates inv (Some (startedAt next))) 0
                (startedAt inv) (startedAt next) eq_refl Hlt Hlat Hdead) as Hg.
  assert (Hrun : fetchWithRetry (invocationEnv dates inv (Some (startedAt next)))
                   MAX_RETRIES (startedAt inv)
                 = {| outcome := Throw abortError; finishedAt := startedAt next;
                      events := [Attempted 0 (startedAt inv) (startedAt next)] |}).
  { unfold fetchWithRetry. rewrite retryLoop_unfold, Hg. reflexivity. }
  assert (Hout : outcome run = Throw abortError).
  { unfold run. rewrite analyzeTranscript_outcome, Hrun. reflexivity. }
  split; [exact Hout |].
  split; [unfold run, analyzeTranscript, andThen; rewrite Hrun; reflexivity |].
  split; [unfold run, attempts, analyzeTranscript, andThen; rewrite Hrun; reflexivity |].
  intros Hin. unfold analyzeSession in Hin.
  destruct (publishers_In _ _ Hin) as (b & s & Hb & Hw & Hs & Hp).
  apply In_chronological in Hb.
  destruct (analyzeBatches_In dates b invs 0 Hb) as (j & inv' & Hj & Hwj & Hc).
  cbn [Nat.add] in Hwj. assert (Hji : j = i) by congruence.
  rewrite Hji in Hj, Hc. clear Hji Hwj.
  rewrite Hi in Hj. injection Hj as <-.
  rewrite Hnext in Hc. cbn [option_map] in Hc. fold run in Hc. rewrite Hout in Hc.
  destruct Hc as [Hc | Hc]; rewrite Hc in Hs; cbn in Hs;
    repeat (destruct Hs as [<- | Hs]; [discriminate Hp |]); exact Hs.
Qed.

Lemma superseded_in_flight_never_publishes_witness :
  ~ In 0%nat
       (publishers
          (analyzeSession Samples.noDates [Cases.slowAnalyze; Samples.secondAnalyze])).
Proof.
  assert (H1 : (startedAt Cases.slowAnalyze < startedAt Samples.secondAnalyze)%Q)
    by reflexivity.
  assert (H2 : (startedAt Samples.secondAnalyze
                <= startedAt Cases.slowAnalyze + latency (network Cases.slowAnalyze 0))%Q)
    by (vm_compute; discriminate).
  assert (H3 : (startedAt Samples.secondAnalyze
                <= startedAt Cases.slowAnalyze + inject_Z DEFAULT_TIMEOUT_MS)%Q)
    by (vm_compute; discriminate).
  exact (proj2 (proj2 (proj2
           (superseded_in_flight_never_publishes Samples.noDates
              [Cases.slowAnalyze; Samples.secondAnalyze] 0
              Cases.slowAnalyze Samples.secondAnalyze
              eq_refl eq_refl H1 H2 H3)))).
Defined.

(** ** Trimming *)

Lemma append_nil_r (s : string) : s ++ "" = s.
Proof. induction s as [| c s IH]; cbn; [reflexivity | rewrite IH; reflexivity]. Qed.

Lemma append_assoc (a b c : string) : (a ++ b) ++ c = a ++ (b ++ c).
Proof. induction a as [| x a IH]; cbn; [reflexivity | rewrite IH; reflexivity]. Qed.

Lemma length_append (a b : string) :
  String.length (a ++ b) = (String.length a + String.length b)%nat.
Proof. induction a as [| x a IH]; cbn; [reflexivity | rewrite IH; reflexivity]. Qed.

Lemma rev_string_acc (s acc : string) :
  Js.rev_string acc s = Js.rev_string "" s ++ acc.
Proof.
  revert acc. induction s as [| c s IH]; intros acc; cbn [Js.rev_string].
  - reflexivity.
  - rewrite (IH (String c acc)), (IH (String c "")), append_assoc. reflexivity.
Qed.

Lemma rev_string_append (a b : string) :
  Js.rev_string "" (a ++ b) = Js.rev_string "" b ++ Js.rev_string "" a.
Proof.
  induction a as [| c a IH]; cbn [append Js.rev_string].
  - rewrite append_nil_r. reflexivity.
  - rewrite (rev_string_acc (a ++ b)), (rev_string_acc a), IH, append_assoc. reflexivity.
Qed.

Lemma rev_string_involutive (s : string) :
  Js.rev_string "" (Js.rev_string "" s) = s.
Proof.
  induction s as [| c s IH]; cbn [Js.rev_string]; [reflexivity |].
  rewrite (rev_string_acc s (String c "")), rev_string_append, IH. reflexivity.
Qed.

Lemma length_rev_string (s : string) :
  String.length (Js.rev_string "" s) = String.length s.
Proof.
  induction s as [| c s IH]; cbn [Js.rev_string]; [reflexivity |].
  rewrite (rev_string_acc s (String c "")), length_append, IH. cbn. lia.
Qed.

Lemma length_trimStart (s : string) :
  (String.length (Js.trimStart s) <= String.length s)%nat.
Proof.
  induction s as [| c s IH]; cbn [Js.trimStart]; [lia |].
  destruct (Js.isWhiteSpace c); cbn [String.length]; lia.
Qed.

Lemma length_trim (s : string) : (String.length (Js.trim s) <= String.length s)%nat.
Proof.
  unfold Js.trim, Js.trimEnd. rewrite length_rev_string.
  eapply Nat.le_trans; [apply length_trimStart |].
  rewrite length_rev_string. apply length_trimStart.
Qed.

Lemma trimStart_fixed (s : string) :
  match s with String c _ => Js.isWhiteSpace c = false | EmptyString => True end ->
  Js.trimStart s = s.
Proof. destruct s as [| c s]; cbn; [reflexivity | intros ->; reflexivity]. Qed.

Lemma trimStart_head (s : string) :
  match Js.trimStart s with
  | String c _ => Js.isWhiteSpace c = false
  | EmptyString => True
  end.
Proof.
  induction s as [| c s IH]; cbn [Js.trimStart]; [exact I |].
  destruct (Js.isWhiteSpace c) eqn:E; [exact IH | exact E].
Qed.

Lemma trimStart_idempotent (s : string) : Js.trimStart (Js.trimStart s) = Js.trimStart s.
Proof. apply trimStart_fixed, trimStart_head. Qed.

Lemma trimStart_keeps_last (t : string) (c : ascii) :
  Js.isWhiteSpace c = false ->
  exists t', Js.trimStart (t ++ String c "") = t' ++ String c "".
Proof.
  intros Hc. induction t as [| x t IH]; cbn [append Js.trimStart].
  - rewrite Hc. exists "". reflexivity.
  - destruct (Js.isWhiteSpace x); [exact IH |].
    exists (String x t). reflexivity.
Qed.

Lemma trimEnd_head (s : string) :
  match s with String c _ => Js.isWhiteSpace c = false | EmptyString => True end ->
  match Js.trimEnd s with
  | String c _ => Js.isWhiteSpace c = false
  | EmptyString => True
  end.
Proof.
  destruct s as [| c s]; [intros _; exact I |]. intros Hc.
  unfold Js.trimEnd. cbn [Js.rev_string]. rewrite (rev_string_acc s (String c "")).
  destruct (trimStart_keeps_last (Js.rev_string "" s) c Hc) as [t' Ht].
  rewrite Ht, rev_string_append. cbn. exact Hc.
Qed.

Lemma trimEnd_idempotent (s : string) : Js.trimEnd (Js.trimEnd s) = Js.trimEnd s.
Proof.
  unfold Js.trimEnd. rewrite rev_string_involutive, trimStart_idempotent. reflexivity.
Qed.

Lemma trim_idempotent (s : string) : Js.trim (Js.trim s) = Js.trim s.
Proof.
  unfold Js.trim.
  rewrite (trimStart_fixed (Js.trimEnd (Js.trimStart s)))
    by (apply trimEnd_head, trimStart_head).
  apply trimEnd_idempotent.
Qed.

(** ** The forms of the page *)

Lemma inputStatus_ready (minimum : nat) (text : string) :
  (1 <= minimum)%nat ->
  (inputStatus minimum text = Ready <-> isValidLength minimum text = true).
Proof.
  intros Hmin. unfold inputStatus.
  destruct (isValidLength minimum text) eqn:Hv; cbn [negb].
  - rewrite andb_false_r.
    assert (Hlen : (0 <? String.length text)%nat = true).
    { apply Nat.ltb_lt. unfold isValidLength, trimmedLength in Hv.
      apply Nat.leb_le in Hv. pose proof (length_trim text). lia. }
    rewrite Hlen. split; reflexivity.
  - rewrite andb_true_r.
    destruct (0 <? String.length text)%nat; split; intros H; discriminate H.
Qed.

Lemma inputStatus_more (minimum : nat) (text : string) (n : Z) (plural : bool) :
  inputStatus minimum text = MoreNeeded n plural ->
  1 <= n <= Z.of_nat minimum /\ plural = negb (n =? 1)
  /\ isValidLength minimum text = false.
Proof.
  unfold inputStatus.
  destruct (isValidLength minimum text) eqn:Hv; cbn [negb].
  - rewrite andb_false_r. destruct (0 <? String.length text)%nat; discriminate.
  - rewrite andb_true_r. destruct (0 <? String.length text)%nat; [| discriminate].
    intros H. injection H as <- <-.
    unfold isValidLength in Hv. apply Nat.leb_gt in Hv.
    unfold charsNeeded. repeat split; lia.
Qed.

(** X12.  The page sends an [analyze] request exactly when the trimmed
    transcript has at least [TRANSCRIPT_MIN_LENGTH] characters, which is
    also exactly when the status line of [TranscriptInput] reads ready and
    when its button is enabled while nothing is loading.  The transcript
    that is sent is the trimmed one: it has at least the minimum length, is
    no longer than what was typed, and carries no additional context.
    Otherwise nothing is sent and the hook is not called; the count the
    status line then asks for lies between 1 and the minimum. *)
Theorem transcript_submission (env : Env) (clock : Q) (text : string) :
  (fst (handleAnalyze env clock text) <> None
   <-> isValidLength TRANSCRIPT_MIN_LENGTH text = true)
  /\ (inputStatus TRANSCRIPT_MIN_LENGTH text = Ready
      <-> isValidLength TRANSCRIPT_MIN_LENGTH text = true)
  /\ (buttonDisabled false TRANSCRIPT_MIN_LENGTH text = false
      <-> isValidLength TRANSCRIPT_MIN_LENGTH text = true)
  /\ (isValidLength TRANSCRIPT_MIN_LENGTH text = false ->
      handleAnalyze env clock text = (None, []))
  /\ (forall request, fst (handleAnalyze env clock text) = Some request ->
      transcript request = Js.trim text
      /\ (TRANSCRIPT_MIN_LENGTH <= String.length (transcript request)
          <= String.length text)%nat
      /\ Js.trim (transcript request) = transcript request
      /\ additional_context request = None
      /\ snd (handleAnalyze env clock text) = analyze env clock)
  /\ (forall n plural, inputStatus TRANSCRIPT_MIN_LENGTH text = MoreNeeded n plural ->
      1 <= n <= Z.of_nat TRANSCRIPT_MIN_LENGTH /\ plural = negb (n =? 1)).
Proof.
  assert (Hguard : (negb (Js.truthy (Some (Js.trim text)))
                    || (String.length (Js.trim text) <? TRANSCRIPT_MIN_LENGTH)%nat)
                   = negb (isValidLength TRANSCRIPT_MIN_LENGTH text)).
  { unfold isValidLength, trimmedLength, TRANSCRIPT_MIN_LENGTH.
    destruct (Js.trim text) as [| c s] eqn:E; cbn [Js.truthy negb orb String.length].
    - reflexivity.
    - rewrite Nat.ltb_antisym. reflexivity. }
  unfold handleAnalyze. rewrite Hguard.
  split.
  { destruct (isValidLength TRANSCRIPT_MIN_LENGTH text); cbn [negb fst]; split;
      congruence. }
  split; [apply inputStatus_ready; unfold TRANSCRIPT_MIN_LENGTH; lia |].
  split.
  { unfold buttonDisabled. cbn [orb].
    destruct (isValidLength TRANSCRIPT_MIN_LENGTH text); cbn; split; congruence. }
  split; [intros ->; reflexivity |].
  split.
  { intros request.
    destruct (isValidLength TRANSCRIPT_MIN_LENGTH text) eqn:Hv; cbn [negb fst snd];
      [| discriminate].
    intros H. injection H as <-. unfold analyzeRequest.
    cbn [transcript additional_context].
    unfold isValidLength, trimmedLength in Hv. apply Nat.leb_le in Hv.
    repeat split; try reflexivity; try exact Hv.
    - apply length_trim.
    - apply trim_idempotent. }
  intros n plural H.
  destruct (inputStatus_more _ _ _ _ H) as (Hn & Hp & _). split; assumption.
Qed.

Lemma transcript_submission_witness :
  handleAnalyze Samples.rejected 0 "   too short   " = (None, []).
Proof.
  exact (proj1 (proj2 (proj2 (proj2 (transcript_submission Samples.rejected 0
                                       "   too short   ")))) eq_refl).
Defined.

(** X13.  The feedback panel calls the hook only when the trimmed feedback
    has at least [FEEDBACK_MIN_LENGTH] characters and there is a result;
    otherwise nothing is sent, no setter is called (in particular the local
    error of [refine] is never shown this way) and the typed feedback
    stays.  The request that leaves carries the result as
    [original_response] and the trimmed feedback: trimming it a second time
    in [refineWithFeedback] changes nothing, so what is sent has at least
    the minimum length and is no longer than what was typed.  The typed
    feedback is cleared exactly when the refinement succeeds. *)
Theorem feedback_submission (env : Env) (clock : Q) (result : option AnalysisResponse)
    (text : string) (section : SectionType) :
  let sent := fst (fst (panelHandleRefine env clock result text section)) in
  let calls := snd (fst (panelHandleRefine env clock result text section)) in
  let kept := snd (panelHandleRefine env clock result text section) in
  (isValidLength FEEDBACK_MIN_LENGTH text = false \/ result = None ->
   sent = None /\ calls = [] /\ kept = text)
  /\ (forall doc, result = Some doc -> isValidLength FEEDBACK_MIN_LENGTH text = true ->
      sent = Some {| original_response := doc; feedback := Js.trim text;
                     section_to_edit := section |}
      /\ calls = (refineStart ++ refineSettled (outcome (refineWithFeedback env clock)))%list
      /\ kept = match outcome (refineWithFeedback env clock) with
                | Ok _ => ""
                | Throw _ => text
                end)
  /\ (forall request, sent = Some request ->
      (FEEDBACK_MIN_LENGTH <= String.length (feedback request) <= String.length text)%nat)
  /\ (inputStatus FEEDBACK_MIN_LENGTH text = Ready
      <-> isValidLength FEEDBACK_MIN_LENGTH text = true).
Proof.
  cbv zeta.
  assert (Hstatus : inputStatus FEEDBACK_MIN_LENGTH text = Ready
                    <-> isValidLength FEEDBACK_MIN_LENGTH text = true).
  { apply inputStatus_ready. unfold FEEDBACK_MIN_LENGTH. lia. }
  unfold panelHandleRefine, pageHandleRefine.
  rewrite Nat.ltb_antisym.
  change (FEEDBACK_MIN_LENGTH <=? String.length (Js.trim text))%nat
    with (isValidLength FEEDBACK_MIN_LENGTH text).
  destruct (isValidLength FEEDBACK_MIN_LENGTH text) eqn:Hv; cbn [negb].
  - unfold isValidLength, trimmedLength in Hv. apply Nat.leb_le in Hv.
    destruct result as [doc |].
    + unfold refine, refineReturns, refineRequest. rewrite trim_idempotent.
      cbn [fst snd].
      split; [intros [H | H]; discriminate H |].
      split.
      { intros d Hd _. injection Hd as <-.
        destruct (outcome (refineWithFeedback env clock)); repeat split; reflexivity. }
      split; [| exact Hstatus].
      intros request H. injection H as <-. cbn [feedback].
      split; [exact Hv | apply length_trim].
    + cbn [fst snd].
      split; [intros _; repeat split; reflexivity |].
      split; [intros d Hd; discriminate Hd |].
      split; [intros request H; discriminate H | exact Hstatus].
  - cbn [fst snd].
    split; [intros _; repeat split; reflexivity |].
    split; [intros d _ H; discriminate H |].
    split; [intros request H; discriminate H | exact Hstatus].
Qed.

Lemma feedback_submission_witness :
  fst (fst (panelHandleRefine Samples.rejected 0 (Some (Samples.document "current"))
                              "  make it formal  " all_sections))
  = Some {| original_response := Samples.document "current";
            feedback := "make it formal";
            section_to_edit := all_sections |}.
Proof.
  exact (proj1 (proj1 (proj2 (feedback_submission Samples.rejected 0
                                (Some (Samples.document "current"))
                                "  make it formal  " all_sections))
                      (Samples.document "current") eq_refl eq_refl)).
Defined.

(** ** The message of an HTTP failure *)

Lemma startsWith_append (m x : string) : Js.startsWith m (m ++ x) = true.
Proof.
  induction m as [| c m IH]; cbn; [reflexivity |].
  rewrite Ascii.eqb_refl. exact IH.
Qed.

Lemma startsWith_refl (m : string) : Js.startsWith m m = true.
Proof. rewrite <- (append_nil_r m) at 2. apply startsWith_append. Qed.

Lemma handleResponse_failure (response : Response) :
  ok response = false ->
  exists e, handleResponse response = Throw e
            /\ isAbortError e = false /\ formatErrorMessage e <> "".
Proof.
  intros Hok. unfold handleResponse. rewrite Hok. cbn [negb].
  eexists. split; [reflexivity |]. split; [reflexivity |].
  cbn [formatErrorMessage].
  assert (Hne : forall d f, Js.orElse d ("Request failed: " ++ f) <> "").
  { intros d f. unfold Js.orElse. destruct d as [[| c s] |]; discriminate. }
  destruct (match json response with Some j => errors j | None => None end)
    as [[| x xs] |]; try apply Hne.
  specialize (Hne (match json response with Some j => detail j | None => None end)
                  (statusText response)).
  destruct (Js.orElse _ _); [congruence | discriminate].
Qed.

(** X15.  In every state of the hook the page shows something: the loading
    notice, the error box, the results panel or the empty state.  While
    [loading] holds it shows the loading notice and nothing else; the empty
    state is never shown together with another block; an error and the
    previous results can be shown side by side.  After an [analyze] whose
    request ends with a response that is not 2xx, the error box is shown
    and the loading notice is not, and the results panel is shown exactly
    when there was a result before. *)
Theorem page_shows_something (st : HookState) :
  (showsLoading (panels st) || showsError (panels st)
   || showsResults (panels st) || showsEmpty (panels st) = true)
  /\ (loading st = true ->
      showsError (panels st) = false /\ showsResults (panels st) = false
      /\ showsEmpty (panels st) = false)
  /\ (showsEmpty (panels st) = true ->
      showsLoading (panels st) = false /\ showsError (panels st) = false
      /\ showsResults (panels st) = false)
  /\ (forall env clock response,
        outcome (fetchWithRetry env MAX_RETRIES clock) = Ok response ->
        ok response = false ->
        let st' := applySetters st (analyze env clock) in
        showsError (panels st') = true
        /\ showsLoading (panels st') = false
        /\ showsResults (panels st') = hasResult st).
Proof.
  unfold panels, hasResult. cbn [showsLoading showsError showsResults showsEmpty].
  split.
  { destruct (loading st), (result st), (Js.truthy (error st)); reflexivity. }
  split.
  { intros ->. rewrite !andb_false_r. repeat split; reflexivity. }
  split.
  { destruct (loading st), (result st), (Js.truthy (error st)); cbn;
      intros H; try discriminate H; repeat split; reflexivity. }
  intros env clock response Hout Hok.
  destruct (handleResponse_failure response Hok) as (e & Hh & Hab & Hne).
  unfold analyze. rewrite analyzeTranscript_outcome, Hout. cbn [bind]. rewrite Hh.
  unfold analyzeSettled. rewrite Hab. cbn.
  destruct (formatErrorMessage e) as [| c s]; [congruence |].
  cbn. destruct (result st); repeat split; reflexivity.
Qed.

Lemma page_shows_something_witness :
  showsError (panels (applySetters initialState (analyze Samples.rejected 0))) = true.
Proof.
  exact (proj1 (proj2 (proj2 (proj2 (page_shows_something initialState)))
                  Samples.rejected 0%Q Samples.unprocessable eq_refl eq_refl)).
Defined.
